(** * GrowthTable: a bounds-checked, resizable HTML table

    Shallow embedding of [src/scripts/main.js] (class [GrowthTable]) and the
    properties of its resize / capability logic.

    Modelling conventions.
    - JavaScript numbers that the class uses ([_minDimCount], [_maxDimCount],
      [delta], [dx], [dy], collection lengths) are integers, modelled as [Z].
    - A table cell is its [innerHTML] (a string) and a row is the list of its
      cells ([row.cells]).  A table body is the list of its element children:
      rows, and elements that are not rows (a [template] or a [script], which
      HTML allows there); [tbody.rows] is the list of the rows among them.  A
      table is the list of its bodies ([table.tBodies]).
    - Assigning a string to [innerHTML] parses it, and reading [innerHTML]
      back serialises the result: [reparse s] is what a cell holds after [s]
      was assigned to it.  It is a parameter of the development.
    - The DOM methods the class calls ([insertRow], [deleteRow], [insertCell],
      [deleteCell]) are modelled with the index checks of the HTML standard,
      so they can throw [IndexSizeError]; [Array.from(undefined)] throws
      [TypeError]; [querySelector] throws [SyntaxError] on a malformed
      selector.
    - In-place mutation is modelled by state passing: every method takes the
      instance and returns the updated instance.  An exception carries the
      state as it is when the exception leaves the method.
    - The buttons are references to elements of the document, which may
      coincide; their [disabled] property lives in the document. *)

From Stdlib Require Import String.
From Stdlib Require Import ZArith List Bool Lia FunctionalExtensionality.
Import ListNotations.
Open Scope Z_scope.

(** ** Completions: normal return or thrown exception *)

Inductive exn : Type :=
| IndexSizeError
| SyntaxError
| TypeError
| Error (msg : string).

(** [Normal a]: the computation returned and left [a].  [Throw e a]: it threw
    [e], and [a] is the mutated object as the exception found it. *)
Inductive completion (A : Type) : Type :=
| Normal (a : A)
| Throw (e : exn) (a : A).

Arguments Normal {A} a.
Arguments Throw {A} e a.

Definition bind {A : Type} (c : completion A) (k : A -> completion A)
  : completion A :=
  match c with
  | Normal a => k a
  | Throw e a => Throw e a
  end.

Notation "x <- c ;; k" := (bind c (fun x => k))
  (at level 61, c at next level, right associativity).

(** The object a computation works on is part of a larger one. *)
Definition lift {A B : Type} (f : A -> B) (c : completion A) : completion B :=
  match c with
  | Normal a => Normal (f a)
  | Throw e a => Throw e (f a)
  end.

Definition returns {A : Type} (c : completion A) : Prop :=
  exists a, c = Normal a.

(** The state a computation leaves, however it ended. *)
Definition settle {A : Type} (c : completion A) : A :=
  match c with
  | Normal a => a
  | Throw _ a => a
  end.

(** [Array.from(xs).forEach(f)] where [f] mutates the accumulated state. *)
Fixpoint forEach {A S : Type} (f : A -> S -> completion S) (xs : list A) (s : S)
  : completion S :=
  match xs with
  | [] => Normal s
  | x :: xs' => s' <- f x s ;; forEach f xs' s'
  end.

(** ** The part of the DOM the class touches *)

Definition Cell : Type := string.
Definition Row : Type := list Cell.

(** An element child of a table body. *)
Inductive Child : Type :=
| Tr (cells : Row)
| NonRow.

Definition TBody : Type := list Child.

Record Table : Type := mkTable { tBodies : list TBody }.

(** [tbody.rows] *)
Fixpoint rowsOf (tb : TBody) : list Row :=
  match tb with
  | [] => []
  | Tr r :: tb' => r :: rowsOf tb'
  | NonRow :: tb' => rowsOf tb'
  end.

(** [x.cells]: [undefined] when [x] is not a row. *)
Definition cellsOf (c : Child) : option Row :=
  match c with
  | Tr r => Some r
  | NonRow => None
  end.

(** A reference to an element of the document. *)
Definition Ref : Type := nat.

(** What [document.querySelector] does with a selector. *)
Inductive Selected : Type :=
| Malformed
| NoMatch
| Match (r : Ref).

(** What an element of the document is. *)
Inductive Element : Type :=
| HTMLTableElement (t : Table)
| OtherElement.

Record Document : Type := mkDocument
  { querySelector : string -> Selected;
    elementAt : Ref -> Element;
    disabledAt : Ref -> bool }.

(** Insertion of [x] into a collection at a DOM index: [-1] or the length
    appends, an index inside the collection inserts before it, anything
    else throws. *)
Definition insertAt {A : Type} (index : Z) (x : A) (xs : list A)
  : completion (list A) :=
  if (index <? -1) || (Z.of_nat (length xs) <? index) then Throw IndexSizeError xs
  else if (index =? -1) || (index =? Z.of_nat (length xs)) then Normal (xs ++ [x])
  else Normal (firstn (Z.to_nat index) xs ++ x :: skipn (Z.to_nat index) xs).

(** Deletion at a DOM index: [-1] removes the last item and does nothing on
    an empty collection, an index inside the collection removes that item,
    anything else throws. *)
Definition deleteAt {A : Type} (index : Z) (xs : list A)
  : completion (list A) :=
  if (index <? -1) || (Z.of_nat (length xs) <=? index) then Throw IndexSizeError xs
  else if index =? -1 then Normal (removelast xs)
  else Normal (firstn (Z.to_nat index) xs ++ skipn (S (Z.to_nat index)) xs).

(** [row.insertCell(index)]: the new cell is empty. *)
Definition insertCell (index : Z) (r : Row) : completion Row :=
  insertAt index (EmptyString : Cell) r.

(** [row.deleteCell(index)]. *)
Definition deleteCell (index : Z) (r : Row) : completion Row :=
  deleteAt index r.

(** The children of a body with [x] put before its [i]-th row. *)
Fixpoint insertRowAt (i : nat) (x : Child) (tb : TBody) : TBody :=
  match tb with
  | [] => [x]
  | Tr r :: tb' =>
      match i with
      | O => x :: Tr r :: tb'
      | S i' => Tr r :: insertRowAt i' x tb'
      end
  | NonRow :: tb' => NonRow :: insertRowAt i x tb'
  end.

(** The children of a body without its [i]-th row. *)
Fixpoint deleteRowAt (i : nat) (tb : TBody) : TBody :=
  match tb with
  | [] => []
  | Tr r :: tb' =>
      match i with
      | O => tb'
      | S i' => Tr r :: deleteRowAt i' tb'
      end
  | NonRow :: tb' => NonRow :: deleteRowAt i tb'
  end.

(** [tbody.insertRow(index)]: the index counts rows; the new row has no cells
    and, for [-1] or the number of rows, becomes the last child. *)
Definition insertRow (index : Z) (tb : TBody) : completion TBody :=
  let n := Z.of_nat (length (rowsOf tb)) in
  if (index <? -1) || (n <? index) then Throw IndexSizeError tb
  else if (index =? -1) || (index =? n) then Normal (tb ++ [Tr []])
  else Normal (insertRowAt (Z.to_nat index) (Tr []) tb).

(** The children of a body without its last row. *)
Definition dropLastRow (tb : TBody) : TBody :=
  match length (rowsOf tb) with
  | O => tb
  | S m => deleteRowAt m tb
  end.

(** [tbody.deleteRow(index)]: the index counts rows; [-1] removes the last
    row and does nothing when there is none. *)
Definition deleteRow (index : Z) (tb : TBody) : completion TBody :=
  let n := Z.of_nat (length (rowsOf tb)) in
  if (index <? -1) || (n <=? index) then Throw IndexSizeError tb
  else if index =? -1 then Normal (dropLastRow tb)
  else Normal (deleteRowAt (Z.to_nat index) tb).

(** [xs[i]] on a DOM collection: [undefined] outside the collection. *)
Definition item {A : Type} (xs : list A) (i : Z) : option A :=
  if i <? 0 then None else nth_error xs (Z.to_nat i).

(** [tbody.lastElementChild]: the last element child, a row or not. *)
Definition lastElementChild (tb : TBody) : option Child :=
  item tb (Z.of_nat (length tb) - 1).

(** Mutation of the item most recently appended to a collection. *)
Fixpoint onLast {A : Type} (f : A -> completion A) (xs : list A)
  : completion (list A) :=
  match xs with
  | [] => Normal []
  | [x] => lift (fun x' => [x']) (f x)
  | x :: xs' => lift (cons x) (onLast f xs')
  end.

(** Mutation of a child that is a row. *)
Definition onRow (f : Row -> completion Row) (c : Child) : completion Child :=
  match c with
  | Tr r => lift Tr (f r)
  | NonRow => Normal NonRow
  end.

(** [Array.from(tbody.rows).forEach(f)] where [f] mutates the row it
    visits. *)
Fixpoint forEachRow (f : Row -> completion Row) (tb : TBody)
  : completion TBody :=
  match tb with
  | [] => Normal []
  | NonRow :: tb' => lift (cons NonRow) (forEachRow f tb')
  | Tr r :: tb' =>
      match f r with
      | Normal r' => lift (cons (Tr r')) (forEachRow f tb')
      | Throw e r' => Throw e (Tr r' :: tb')
      end
  end.

(** ** The class *)

Record CurrentState : Type := mkCurrentState
  { canAddX : bool;
    canRemX : bool;
    canAddY : bool;
    canRemY : bool }.

(** The instance together with the part of the document it refers to: the
    table [_field] points to, and the [disabled] property of the elements,
    among them those the four buttons point to. *)
Record GrowthTable : Type := mkGrowthTable
  { _maxDimCount : Z;
    _minDimCount : Z;
    _field : Table;
    _currentState : CurrentState;
    _addRowBtn : Ref;
    _remRowBtn : Ref;
    _addColBtn : Ref;
    _remColBtn : Ref;
    disabled : Ref -> bool }.

Definition setField (g : GrowthTable) (f : Table) : GrowthTable :=
  mkGrowthTable (_maxDimCount g) (_minDimCount g) f (_currentState g)
    (_addRowBtn g) (_remRowBtn g) (_addColBtn g) (_remColBtn g) (disabled g).

(** [el.disabled = b] *)
Definition setDisabled (el : Ref) (b : bool) (d : Ref -> bool) : Ref -> bool :=
  fun r => if Nat.eqb r el then b else d r.

(** [#getBodyOfField]: the first body of the table; a table without a body
    gets an empty one appended.  Returns the table as it is afterwards
    together with that body. *)
Definition getBodyOfField (f : Table) : Table * TBody :=
  match tBodies f with
  | tb :: _ => (f, tb)
  | [] => (mkTable [[]], [])
  end.

(** Write-back of the (mutated) first body. *)
Definition putBody (f : Table) (tb : TBody) : Table :=
  match tBodies f with
  | _ :: rest => mkTable (tb :: rest)
  | [] => mkTable [tb]
  end.

(** The element children of the first body. *)
Definition body (f : Table) : TBody :=
  match tBodies f with
  | tb :: _ => tb
  | [] => []
  end.

(** The grid the class works on: the rows of the first body. *)
Definition rows (f : Table) : list Row := rowsOf (body f).

Definition rowCount (g : GrowthTable) : Z := Z.of_nat (length (rows (_field g))).

(** [tbody.rows[0]?.cells.length || 0] *)
Definition colCountOf (rs : list Row) : Z :=
  match item rs 0 with
  | Some r => Z.of_nat (length r)
  | None => 0
  end.

Definition colCount (g : GrowthTable) : Z := colCountOf (rows (_field g)).

(** [#syncCurrentState] *)
Definition syncCurrentState (g : GrowthTable) : GrowthTable :=
  let '(f, tbody) := getBodyOfField (_field g) in
  let rowCount := Z.of_nat (length (rowsOf tbody)) in
  let colCount := colCountOf (rowsOf tbody) in
  let st := mkCurrentState true true true true in
  let st := if rowCount >=? _maxDimCount g
            then mkCurrentState (canAddX st) (canRemX st) false (canRemY st)
            else st in
  let st := if rowCount <=? _minDimCount g
            then mkCurrentState (canAddX st) (canRemX st) (canAddY st) false
            else st in
  let st := if colCount >=? _maxDimCount g
            then mkCurrentState false (canRemX st) (canAddY st) (canRemY st)
            else st in
  let st := if colCount <=? _minDimCount g
            then mkCurrentState (canAddX st) false (canAddY st) (canRemY st)
            else st in
  let d := setDisabled (_addRowBtn g) (negb (canAddY st)) (disabled g) in
  let d := setDisabled (_remRowBtn g) (negb (canRemY st)) d in
  let d := setDisabled (_addColBtn g) (negb (canAddX st)) d in
  let d := setDisabled (_remColBtn g) (negb (canRemX st)) d in
  mkGrowthTable (_maxDimCount g) (_minDimCount g) f st
    (_addRowBtn g) (_remRowBtn g) (_addColBtn g) (_remColBtn g) d.

(** [for (let i = 0; i < numToRemove; i++) { if (rows.length <= min) break;
    tbody.deleteRow(-1); }] with [n] iterations left. *)
Fixpoint removeRowsLoop (minDim : Z) (n : nat) (tb : TBody)
  : completion TBody :=
  match n with
  | O => Normal tb
  | S n' =>
      if Z.of_nat (length (rowsOf tb)) <=? minDim then Normal tb
      else tb' <- deleteRow (-1) tb ;; removeRowsLoop minDim n' tb'
  end.

(** The callback of [#changeCols] that removes a cell. *)
Definition remCol (minDim : Z) (row : Row) : completion Row :=
  if Z.of_nat (length row) <=? minDim then Normal row
  else deleteCell (-1) row.

(** [constructor]: the five selectors are resolved in the document, the limits
    are stored and the state is synchronised.  The four listeners it installs
    are [clickHandler 0 1], [clickHandler 0 (-1)], [clickHandler 1 0] and
    [clickHandler (-1) 0], on the four buttons in this order.  The four flags,
    [null] in the class body, are overwritten by the synchronisation before
    the constructor returns.  A constructor that throws leaves no instance:
    the result is the exception or the instance. *)
Definition constructor (doc : Document)
    (tableFieldSel appendRowButtonSel removeRowButtonSel
       appendColButtonSel removeColButtonSel : string)
    (minDimCount maxDimCount : Z) : exn + GrowthTable :=
  match querySelector doc tableFieldSel with
  | Malformed => inl SyntaxError
  | NoMatch => inl (Error "Table field element is not found in DOM"%string)
  | Match fieldRef =>
      match elementAt doc fieldRef with
      | OtherElement =>
          inl (Error "Table field element is not found in DOM"%string)
      | HTMLTableElement field =>
          match querySelector doc appendRowButtonSel with
          | Malformed => inl SyntaxError
          | addRowBtn =>
          match querySelector doc removeRowButtonSel with
          | Malformed => inl SyntaxError
          | remRowBtn =>
          match querySelector doc appendColButtonSel with
          | Malformed => inl SyntaxError
          | addColBtn =>
          match querySelector doc removeColButtonSel with
          | Malformed => inl SyntaxError
          | remColBtn =>
          match addRowBtn, remRowBtn, addColBtn, remColBtn with
          | Match b1, Match b2, Match b3, Match b4 =>
              inr (syncCurrentState
                     (mkGrowthTable maxDimCount minDimCount field
                        (mkCurrentState false false false false)
                        b1 b2 b3 b4 (disabledAt doc)))
          | _, _, _, _ =>
              inl (Error "Some of control elements are not found in DOM"%string)
          end end end end end
      end
  end.

(** [new GrowthTable(undefined, ..., undefined, minDimCount, maxDimCount)]:
    the five selectors at their defaults. *)
Definition construct (doc : Document) (minDimCount maxDimCount : Z)
  : exn + GrowthTable :=
  constructor doc ".field" ".append-row.button" ".remove-row.button"
    ".append-column.button" ".remove-column.button" minDimCount maxDimCount.

(** [new GrowthTable()] with every parameter at its default. *)
Definition constructorDefault (doc : Document) : exn + GrowthTable :=
  construct doc 2 10.

(** [refreshCapabilities], the name the specification gives to
    [#syncCurrentState] and the record it leaves. *)
Definition refreshCapabilities (g : GrowthTable) : CurrentState :=
  _currentState (syncCurrentState g).

(** Every row has the same number of cells. *)
Definition rectangular (rs : list Row) : Prop :=
  forall r1 r2, In r1 rs -> In r2 rs -> length r1 = length r2.

(** Sample data: a grid of three rows and two columns, a document whose
    default selectors resolve to a table and to four distinct buttons, and
    instances on them. *)
Definition grid3x2 : list Row :=
  [["a"; "b"]; ["c"; "d"]; ["e"; "f"]]%string.

(** An instance as the constructor leaves it, on a table with one body, with
    the four buttons at the elements [1], [2], [3] and [4]. *)
Definition instanceOf (minDimCount maxDimCount : Z) (tb : TBody)
  : GrowthTable :=
  syncCurrentState
    (mkGrowthTable maxDimCount minDimCount (mkTable [tb])
       (mkCurrentState false false false false)
       1%nat 2%nat 3%nat 4%nat (fun _ => false)).

(** A document in which [.field] is the element [0], a table with the given
    body, and the four button selectors resolve to the elements [1] to [4]. *)
Definition documentOf (tb : TBody) : Document :=
  mkDocument
    (fun sel =>
       if String.eqb sel ".field" then Match 0%nat
       else if String.eqb sel ".append-row.button" then Match 1%nat
       else if String.eqb sel ".remove-row.button" then Match 2%nat
       else if String.eqb sel ".append-column.button" then Match 3%nat
       else if String.eqb sel ".remove-column.button" then Match 4%nat
       else NoMatch)
    (fun r => match r with
              | O => HTMLTableElement (mkTable [tb])
              | _ => OtherElement
              end)
    (fun _ => false).

Definition table3x2 : GrowthTable := instanceOf 2 10 (map Tr grid3x2).
Definition tightTable : GrowthTable := instanceOf 3 3 (map Tr grid3x2).
Definition looseTable : GrowthTable := instanceOf 1 10 (map Tr grid3x2).

(** An instance whose last row is [a, b, c]. *)
Definition abcTable : GrowthTable :=
  instanceOf 2 10 [Tr ["x"; "y"; "z"]; Tr ["a"; "b"; "c"]]%string.

(** An instance on a table that has no body yet, hence no rows. *)
Definition bodilessTable : GrowthTable :=
  mkGrowthTable 10 2 (mkTable [])
    (mkCurrentState true false true false)
    1%nat 2%nat 3%nat 4%nat
    (fun r => match r with 2%nat | 4%nat => true | _ => false end).

(** An instance on a body of two rows followed by a [template] element. *)
Definition templateTable : GrowthTable :=
  instanceOf 2 10 [Tr ["a"; "b"]; Tr ["c"; "d"]; NonRow]%string.

(** An instance on a body of the rows [x, y, z] and [a, b, c] followed by a
    [template] element. *)
Definition abcTemplateTable : GrowthTable :=
  instanceOf 2 10 [Tr ["x"; "y"; "z"]; Tr ["a"; "b"; "c"]; NonRow]%string.

(** An instance on a body that holds a [template] element and no row. *)
Definition templateOnlyTable : GrowthTable := instanceOf 2 10 [NonRow].

(** An instance whose add-row and remove-row buttons are one element, on a
    grid of [minDim] rows. *)
Definition aliasedTable : GrowthTable :=
  syncCurrentState
    (mkGrowthTable 10 3 (mkTable [map Tr grid3x2])
       (mkCurrentState false false false false)
       1%nat 1%nat 3%nat 4%nat (fun _ => false)).

(** The re-serialisation that leaves every markup as it is. *)
Definition verbatim (s : string) : string := s.

(** A re-serialisation that is not the identity: markup with a form nested in
    a form loses the inner form. *)
Definition dropsNestedForm (s : string) : string :=
  if String.eqb s "<form><form></form></form>" then "<form></form>"%string
  else s.

(** An instance whose only cell holds a form nested in a form. *)
Definition nestedFormTable : GrowthTable :=
  instanceOf 1 10 [Tr ["<form><form></form></form>"%string]].

(** An instance whose only cell holds the markup [m0]. *)
Definition unstableTable : GrowthTable := instanceOf 1 10 [Tr ["m0"%string]].

(** A re-serialisation that changes its own output once more. *)
Definition unstableMarkup (s : string) : string :=
  if String.eqb s "m0" then "m1"%string
  else if String.eqb s "m1" then "m2"%string
  else s.

(** ** Closed forms used in the statements, independent of the parser *)

(** Rows the adding loop appends: one per iteration until the limit. *)
Definition added (maxDim : Z) (n : nat) (len : nat) : nat :=
  Z.to_nat (Z.min (Z.of_nat n) (maxDim - Z.of_nat len)).

(** Rows the removing loop deletes. *)
Definition removed (minDim : Z) (n : nat) (len : nat) : nat :=
  Z.to_nat (Z.min (Z.of_nat n) (Z.of_nat len - minDim)).

(** What the removing callback of [#changeCols] leaves of a row. *)
Definition remCol_pure (minDim : Z) (row : Row) : Row :=
  if Z.of_nat (length row) <=? minDim then row else removelast row.

(** A map over the rows of a body, the other children kept. *)
Fixpoint mapRows (f : Row -> Row) (tb : TBody) : TBody :=
  match tb with
  | [] => []
  | Tr r :: tb' => Tr (f r) :: mapRows f tb'
  | NonRow :: tb' => NonRow :: mapRows f tb'
  end.

(** The flags depend on the grid and the limits only. *)
Definition flagsOf (minDim maxDim : Z) (rs : list Row) : CurrentState :=
  let R := Z.of_nat (length rs) in
  let C := match rs with [] => 0 | r :: _ => Z.of_nat (length r) end in
  mkCurrentState (C <? maxDim) (C >? minDim) (R <? maxDim) (R >? minDim).

(** The four assignments to [disabled] of [#syncCurrentState], in its
    order. *)
Definition writeButtons (g : GrowthTable) (st : CurrentState)
    (d : Ref -> bool) : Ref -> bool :=
  setDisabled (_remColBtn g) (negb (canRemX st))
    (setDisabled (_addColBtn g) (negb (canAddX st))
       (setDisabled (_remRowBtn g) (negb (canRemY st))
          (setDisabled (_addRowBtn g) (negb (canAddY st)) d))).

(** The instance [#syncCurrentState] leaves when the table is [f], a table
    that has its body. *)
Definition syncedOf (g : GrowthTable) (f : Table) : GrowthTable :=
  let st := flagsOf (_minDimCount g) (_maxDimCount g) (rows f) in
  mkGrowthTable (_maxDimCount g) (_minDimCount g) f st
    (_addRowBtn g) (_remRowBtn g) (_addColBtn g) (_remColBtn g)
    (writeButtons g st (disabled g)).

(** The table with its first body replaced, a missing body created. *)
Definition fieldWith (f : Table) (tb : TBody) : Table :=
  putBody (fst (getBodyOfField f)) tb.

(** The instance is as [#syncCurrentState] leaves it: the table has its body,
    and the flags and the [disabled] state of the buttons are the ones
    computed from the grid. *)
Definition consistent (g : GrowthTable) : Prop := syncCurrentState g = g.

(** The four buttons are four elements. *)
Definition distinctButtons (g : GrowthTable) : Prop :=
  NoDup [_addRowBtn g; _remRowBtn g; _addColBtn g; _remColBtn g].

(** The [disabled] state of each button is the negation of its flag. *)
Definition buttonsMatchFlags (g : GrowthTable) : Prop :=
  disabled g (_addRowBtn g) = negb (canAddY (_currentState g))
  /\ disabled g (_remRowBtn g) = negb (canRemY (_currentState g))
  /\ disabled g (_addColBtn g) = negb (canAddX (_currentState g))
  /\ disabled g (_remColBtn g) = negb (canRemX (_currentState g)).

(** The flags are those of the grid: adding is possible below [maxDim],
    removing above [minDim], for the rows and for the cells of the first
    row. *)
Definition flagsMatchGrid (g : GrowthTable) : Prop :=
  _currentState g =
    {| canAddX := colCount g <? _maxDimCount g;
       canRemX := colCount g >? _minDimCount g;
       canAddY := rowCount g <? _maxDimCount g;
       canRemY := rowCount g >? _minDimCount g |}.

(** The element [#changeRows] takes as the row to copy is a row, or there is
    none. *)
Definition templateIsRow (g : GrowthTable) : Prop :=
  lastElementChild (body (_field g)) <> Some NonRow.

(** The first body holds rows only. *)
Definition rowsOnly (g : GrowthTable) : Prop :=
  Forall (fun c => c <> NonRow) (body (_field g)).

(** The number of rows and the number of cells of every row are within the
    limits. *)
Definition withinBounds (g : GrowthTable) : Prop :=
  _minDimCount g <= rowCount g <= _maxDimCount g
  /\ Forall (fun r : Row =>
               _minDimCount g <= Z.of_nat (length r) <= _maxDimCount g)
       (rows (_field g)).

(** What a run of clicks leaves of an instance [g] in [g']: the limits and
    the button references, a body of rows only, and each of rectangularity,
    the bounds and synchronisation when [g] had it. *)
Definition keeps (g g' : GrowthTable) : Prop :=
  _minDimCount g' = _minDimCount g
  /\ _maxDimCount g' = _maxDimCount g
  /\ [_addRowBtn g'; _remRowBtn g'; _addColBtn g'; _remColBtn g']
     = [_addRowBtn g; _remRowBtn g; _addColBtn g; _remColBtn g]
  /\ rowsOnly g'
  /\ (rectangular (rows (_field g)) -> rectangular (rows (_field g')))
  /\ (withinBounds g -> withinBounds g')
  /\ (consistent g -> consistent g').


(** ** The methods that go through the parser *)

Section Parser.

(** What a cell holds after a string was assigned to its [innerHTML]. *)
Variable reparse : Cell -> Cell.

(** Assignment to the [innerHTML] of the last cell of a row. *)
Definition setLastInnerHTML (html : Cell) (r : Row) : completion Row :=
  onLast (fun _ => Normal (reparse html)) r.

(** [newRow.insertCell().innerHTML = cell.innerHTML] *)
Definition copyCell (cell : Cell) (newRow : Row) : completion Row :=
  r <- insertCell (-1) newRow ;; setLastInnerHTML cell r.

(** The body of the row-adding loop: [tbody.insertRow()], then
    [Array.from(refRow.cells)], which throws when [refRow] has no [cells],
    then one [copyCell] per cell into the row just inserted. *)
Definition insertCopyOf (refRow : Child) (tb : TBody) : completion TBody :=
  tb' <- insertRow (-1) tb ;;
  match cellsOf refRow with
  | None => Throw TypeError tb'
  | Some cells => onLast (onRow (forEach copyCell cells)) tb'
  end.

(** [for (let i = 0; i < delta; i++) { if (rows.length >= max) break; ... }]
    with [n] iterations left. *)
Fixpoint addRowsLoop (maxDim : Z) (refRow : Child) (n : nat) (tb : TBody)
  : completion TBody :=
  match n with
  | O => Normal tb
  | S n' =>
      if Z.of_nat (length (rowsOf tb)) >=? maxDim then Normal tb
      else tb' <- insertCopyOf refRow tb ;; addRowsLoop maxDim refRow n' tb'
  end.

(** [#changeRows] *)
Definition changeRows (delta : Z) (g : GrowthTable) : completion GrowthTable :=
  let '(f, tbody) := getBodyOfField (_field g) in
  if delta >? 0 then
    match lastElementChild tbody with
    | None => Normal (setField g f)
    | Some refRow =>
        lift (fun tb' => setField g (putBody f tb'))
          (addRowsLoop (_maxDimCount g) refRow (Z.to_nat delta) tbody)
    end
  else
    let numToRemove := Z.abs delta in
    lift (fun tb' => setField g (putBody f tb'))
      (removeRowsLoop (_minDimCount g) (Z.to_nat numToRemove) tbody).

(** The callback of [#changeCols] that adds a cell. *)
Definition addCol (maxDim : Z) (row : Row) : completion Row :=
  if Z.of_nat (length row) >=? maxDim then Normal row
  else
    let lastCell := item row (Z.of_nat (length row) - 1) in
    r <- insertCell (-1) row ;;
    setLastInnerHTML (match lastCell with Some c => c | None => EmptyString end) r.

(** [#changeCols] *)
Definition changeCols (delta : Z) (g : GrowthTable) : completion GrowthTable :=
  let '(f, tbody) := getBodyOfField (_field g) in
  if delta >? 0 then
    lift (fun tb' => setField g (putBody f tb'))
      (forEachRow (addCol (_maxDimCount g)) tbody)
  else
    lift (fun tb' => setField g (putBody f tb'))
      (forEachRow (remCol (_minDimCount g)) tbody).

(** The function returned by [clickHandler(dx, dy)], applied to the instance
    it is bound to.  An exception leaves it before the synchronisation. *)
Definition clickHandler (dx dy : Z) (g : GrowthTable) : completion GrowthTable :=
  g1 <- (if dy =? 0 then Normal g else changeRows dy g) ;;
  g2 <- (if dx =? 0 then Normal g1 else changeCols dx g1) ;;
  Normal (syncCurrentState g2).

(** The operations under the names the specification uses. *)
Definition growRows (k : Z) := changeRows k.
Definition shrinkRows (k : Z) := changeRows (- k).
Definition growCols (k : Z) := changeCols k.
Definition shrinkCols (k : Z) := changeCols (- k).

(** The listeners the constructor installs, in its order. *)
Definition listeners (g : GrowthTable) : list (Ref * (Z * Z)) :=
  [(_addRowBtn g, (0, 1)); (_remRowBtn g, (0, -1));
   (_addColBtn g, (1, 0)); (_remColBtn g, (-1, 0))].

(** The dispatch of a click event at [target]: every listener installed on
    that element runs, in order; an exception a listener throws is reported
    and the dispatch goes on with the state as the listener left it. *)
Fixpoint dispatch (ls : list (Ref * (Z * Z))) (target : Ref) (g : GrowthTable)
  : GrowthTable :=
  match ls with
  | [] => g
  | (el, (dx, dy)) :: ls' =>
      dispatch ls' target
        (if Nat.eqb el target then settle (clickHandler dx dy g) else g)
  end.

(** One click of the user on the element [target].  [control] says whether
    the element is a form control such as a [button], on which no click is
    dispatched while it is disabled; on another element [disabled] is a plain
    property and the click is dispatched all the same. *)
Definition click (control : bool) (target : Ref) (g : GrowthTable)
  : GrowthTable :=
  if control && disabled g target then g
  else dispatch (listeners g) target g.


(** A sequence of clicks, each on its own element. *)
Fixpoint clickAll (cs : list (bool * Ref)) (g : GrowthTable) : GrowthTable :=
  match cs with
  | [] => g
  | (control, target) :: cs' => clickAll cs' (click control target g)
  end.

(** *** Closed forms that go through the parser *)

(** What the adding callback of [#changeCols] leaves of a row. *)
Definition addCol_pure (maxDim : Z) (row : Row) : Row :=
  if Z.of_nat (length row) >=? maxDim then row
  else row ++ [reparse (last row EmptyString)].

(** The grid after [#changeRows(delta)] returned. *)
Definition rowsAfterChangeRows (minDim maxDim delta : Z) (rs : list Row)
  : list Row :=
  if delta >? 0 then
    match rs with
    | [] => []
    | _ => rs ++ repeat (map reparse (last rs []))
                   (added maxDim (Z.to_nat delta) (length rs))
    end
  else
    firstn (length rs - removed minDim (Z.to_nat (Z.abs delta)) (length rs)) rs.

(** The grid after [#changeCols(delta)]. *)
Definition rowsAfterChangeCols (minDim maxDim delta : Z) (rs : list Row)
  : list Row :=
  if delta >? 0 then map (addCol_pure maxDim) rs
  else map (remCol_pure minDim) rs.

(** The children of the body after [#changeRows(delta)], and how the call
    ends. *)
Definition bodyAfterChangeRows (minDim maxDim delta : Z) (tb : TBody)
  : completion TBody :=
  if delta >? 0 then
    match lastElementChild tb with
    | None => Normal tb
    | Some (Tr ref) =>
        Normal (tb ++ repeat (Tr (map reparse ref))
                        (added maxDim (Z.to_nat delta) (length (rowsOf tb))))
    | Some NonRow =>
        if Z.of_nat (length (rowsOf tb)) >=? maxDim then Normal tb
        else Throw TypeError (tb ++ [Tr []])
    end
  else
    Normal (Nat.iter (removed minDim (Z.to_nat (Z.abs delta))
                        (length (rowsOf tb)))
              dropLastRow tb).

(** The children of the body after [#changeCols(delta)]. *)
Definition bodyAfterChangeCols (minDim maxDim delta : Z) (tb : TBody) : TBody :=
  if delta >? 0 then mapRows (addCol_pure maxDim) tb
  else mapRows (remCol_pure minDim) tb.

(** The children of the body after the function [clickHandler(dx, dy)]
    returns, and how the function ends. *)
Definition bodyAfterClick (minDim maxDim dx dy : Z) (tb : TBody)
  : completion TBody :=
  tb1 <- (if dy =? 0 then Normal tb
          else bodyAfterChangeRows minDim maxDim dy tb) ;;
  Normal (if dx =? 0 then tb1 else bodyAfterChangeCols minDim maxDim dx tb1).

(** The grid after the function [clickHandler(dx, dy)] returned. *)
Definition rowsAfterClick (minDim maxDim dx dy : Z) (rs : list Row)
  : list Row :=
  let rs1 := if dy =? 0 then rs
             else rowsAfterChangeRows minDim maxDim dy rs in
  if dx =? 0 then rs1 else rowsAfterChangeCols minDim maxDim dx rs1.

(** The markup of the row [#changeRows] copies survives re-parsing
    unchanged. *)
Definition templateIsStable (g : GrowthTable) : Prop :=
  forall ref, lastElementChild (body (_field g)) = Some (Tr ref) ->
              map reparse ref = ref.

(** ** Arithmetic and list facts *)

Lemma gtb_true (a b : Z) : b < a -> (a >? b) = true.
Proof. intros H. rewrite Z.gtb_ltb. apply Z.ltb_lt. exact H. Qed.

Lemma gtb_false (a b : Z) : a <= b -> (a >? b) = false.
Proof. intros H. rewrite Z.gtb_ltb. apply Z.ltb_ge. exact H. Qed.

Lemma geb_true (a b : Z) : b <= a -> (a >=? b) = true.
Proof. intros H. rewrite Z.geb_leb. apply Z.leb_le. exact H. Qed.

Lemma geb_false (a b : Z) : a < b -> (a >=? b) = false.
Proof. intros H. rewrite Z.geb_leb. apply Z.leb_gt. exact H. Qed.

Lemma leb_true (a b : Z) : a <= b -> (a <=? b) = true.
Proof. apply Z.leb_le. Qed.

Lemma leb_false (a b : Z) : b < a -> (a <=? b) = false.
Proof. apply Z.leb_gt. Qed.

Lemma geb_negb_ltb (a b : Z) : (a >=? b) = negb (a <? b).
Proof. rewrite Z.geb_leb. destruct (Z.ltb_spec a b), (Z.leb_spec b a); auto; lia. Qed.

Lemma leb_negb_gtb (a b : Z) : (a <=? b) = negb (a >? b).
Proof. rewrite Z.gtb_ltb. destruct (Z.ltb_spec b a), (Z.leb_spec a b); auto; lia. Qed.

Lemma in_firstn {A : Type} (n : nat) (x : A) (xs : list A) :
  In x (firstn n xs) -> In x xs.
Proof.
  intros H. rewrite <- (firstn_skipn n xs). apply in_or_app. left. exact H.
Qed.

Lemma last_in {A : Type} (xs : list A) (d : A) : xs <> [] -> In (last xs d) xs.
Proof.
  induction xs as [| x xs' IH]; intros Hne; [congruence |].
  destruct xs' as [| y ys].
  - left. reflexivity.
  - right. apply IH. discriminate.
Qed.

Lemma length_removelast_Z {A : Type} (xs : list A) :
  xs <> [] ->
  Z.of_nat (length (removelast xs)) = Z.of_nat (length xs) - 1.
Proof.
  intros Hne. destruct xs as [| x xs'] using rev_ind; [congruence |].
  rewrite removelast_last, length_app. simpl. lia.
Qed.

Lemma length_removelast_nat {A : Type} (xs : list A) :
  length (removelast xs) = (length xs - 1)%nat.
Proof.
  destruct xs as [| x xs'] using rev_ind; [reflexivity |].
  rewrite removelast_last, length_app. simpl. lia.
Qed.

Lemma removelast_firstn_pred {A : Type} (xs : list A) :
  removelast xs = firstn (length xs - 1) xs.
Proof.
  destruct xs as [| x xs'] using rev_ind.
  - reflexivity.
  - rewrite removelast_last, length_app. simpl length.
    replace (length xs' + 1 - 1)%nat with (length xs' + 0)%nat by lia.
    rewrite firstn_app_2. simpl. rewrite app_nil_r. reflexivity.
Qed.

Lemma last_app_repeat {A : Type} (xs : list A) (x d : A) (n : nat) :
  last xs d = x -> last (xs ++ repeat x n) d = x.
Proof.
  intros Hx. induction n as [| n' IH].
  - simpl. rewrite app_nil_r. exact Hx.
  - replace (S n') with (n' + 1)%nat by lia.
    rewrite repeat_app, app_assoc. simpl. apply last_last.
Qed.

Lemma firstn_repeat_le {A : Type} (x : A) (m n : nat) :
  (m <= n)%nat -> firstn m (repeat x n) = repeat x m.
Proof.
  revert n. induction m as [| m' IH]; intros n Hle; [reflexivity |].
  destruct n as [| n']; [lia |].
  simpl. rewrite IH by lia. reflexivity.
Qed.

Lemma repeat_snoc {A : Type} (x : A) (n : nat) :
  repeat x (S n) = repeat x n ++ [x].
Proof.
  replace (S n) with (n + 1)%nat by lia. rewrite repeat_app. reflexivity.
Qed.

Lemma map_fixed {A : Type} (f : A -> A) (xs : list A) :
  (forall x, In x xs -> f x = x) -> map f xs = xs.
Proof.
  intros H. rewrite <- (map_id xs) at 2. apply map_ext_in. exact H.
Qed.




(** ** Facts about the DOM primitives as the class calls them *)

Lemma insertAt_append {A : Type} (x : A) (xs : list A) :
  insertAt (-1) x xs = Normal (xs ++ [x]).
Proof.
  unfold insertAt.
  replace (Z.of_nat (length xs) <? -1) with false by (symmetry; apply Z.ltb_ge; lia).
  reflexivity.
Qed.

Lemma deleteAt_last {A : Type} (xs : list A) :
  deleteAt (-1) xs = Normal (removelast xs).
Proof.
  unfold deleteAt.
  replace (Z.of_nat (length xs) <=? -1) with false by (symmetry; apply Z.leb_gt; lia).
  reflexivity.
Qed.

Lemma insertRow_append (tb : TBody) :
  insertRow (-1) tb = Normal (tb ++ [Tr []]).
Proof.
  unfold insertRow.
  replace (Z.of_nat (length (rowsOf tb)) <? -1) with false
    by (symmetry; apply Z.ltb_ge; lia).
  reflexivity.
Qed.

Lemma deleteRow_last (tb : TBody) :
  deleteRow (-1) tb = Normal (dropLastRow tb).
Proof.
  unfold deleteRow.
  replace (Z.of_nat (length (rowsOf tb)) <=? -1) with false
    by (symmetry; apply Z.leb_gt; lia).
  reflexivity.
Qed.

Lemma onLast_app {A : Type} (f : A -> completion A) (xs : list A) (x : A) :
  onLast f (xs ++ [x]) = lift (fun x' => xs ++ [x']) (f x).
Proof.
  induction xs as [| y ys IH]; simpl.
  - reflexivity.
  - rewrite IH. destruct ys; simpl; destruct (f x); reflexivity.
Qed.

Lemma item_last {A : Type} (xs : list A) (d : A) :
  item xs (Z.of_nat (length xs) - 1) =
  match xs with [] => None | _ => Some (last xs d) end.
Proof.
  unfold item. destruct xs as [| y ys].
  - reflexivity.
  - replace (Z.of_nat (length (y :: ys)) - 1 <? 0) with false
      by (symmetry; apply Z.ltb_ge; simpl length; lia).
    replace (Z.to_nat (Z.of_nat (length (y :: ys)) - 1)) with (length ys)
      by (simpl length; lia).
    revert y. induction ys as [| z zs IH]; intros y.
    + reflexivity.
    + simpl length. simpl nth_error. rewrite IH. reflexivity.
Qed.

Lemma lastElementChild_nil : lastElementChild [] = None.
Proof. reflexivity. Qed.

Lemma lastElementChild_snoc (tb : TBody) (c : Child) :
  lastElementChild (tb ++ [c]) = Some c.
Proof.
  unfold lastElementChild. rewrite (item_last _ NonRow).
  rewrite last_last. destruct tb; reflexivity.
Qed.

Lemma lastElementChild_cases (tb : TBody) :
  tb = [] \/ exists tb0 c, tb = tb0 ++ [c] /\ lastElementChild tb = Some c.
Proof.
  destruct tb as [| c tb'] using rev_ind.
  - left. reflexivity.
  - right. exists tb', c. split; [reflexivity | apply lastElementChild_snoc].
Qed.

Lemma lastElementChild_None (tb : TBody) :
  lastElementChild tb = None -> tb = [].
Proof.
  intros H. destruct (lastElementChild_cases tb) as [E | (tb0 & c & _ & E)];
    [exact E | congruence].
Qed.

Lemma lastElementChild_Some (tb : TBody) (c : Child) :
  lastElementChild tb = Some c -> exists tb0, tb = tb0 ++ [c].
Proof.
  intros H. destruct (lastElementChild_cases tb) as [E | (tb0 & c' & E & E')].
  - subst tb. discriminate.
  - exists tb0. congruence.
Qed.

Lemma rowsOf_app (tb1 tb2 : TBody) :
  rowsOf (tb1 ++ tb2) = rowsOf tb1 ++ rowsOf tb2.
Proof.
  induction tb1 as [| [r |] tb1' IH]; simpl; rewrite ?IH; reflexivity.
Qed.

Lemma rowsOf_repeat_Tr (r : Row) (n : nat) :
  rowsOf (repeat (Tr r) n) = repeat r n.
Proof. induction n as [| n' IH]; simpl; rewrite ?IH; reflexivity. Qed.

Lemma rowsOf_map_Tr (rs : list Row) : rowsOf (map Tr rs) = rs.
Proof. induction rs as [| r rs' IH]; simpl; rewrite ?IH; reflexivity. Qed.

Lemma rowsOf_mapRows (f : Row -> Row) (tb : TBody) :
  rowsOf (mapRows f tb) = map f (rowsOf tb).
Proof.
  induction tb as [| [r |] tb' IH]; simpl; rewrite ?IH; reflexivity.
Qed.

Lemma mapRows_mapRows (f h : Row -> Row) (tb : TBody) :
  mapRows f (mapRows h tb) = mapRows (fun r => f (h r)) tb.
Proof.
  induction tb as [| [r |] tb' IH]; simpl; rewrite ?IH; reflexivity.
Qed.

Lemma mapRows_ext_in (f h : Row -> Row) (tb : TBody) :
  (forall r, In r (rowsOf tb) -> f r = h r) -> mapRows f tb = mapRows h tb.
Proof.
  induction tb as [| [r |] tb' IH]; simpl; intros H.
  - reflexivity.
  - rewrite H by (left; reflexivity). rewrite IH; [reflexivity |].
    intros r' Hin. apply H. right. exact Hin.
  - rewrite IH; [reflexivity | exact H].
Qed.

Lemma mapRows_id (tb : TBody) : mapRows (fun r => r) tb = tb.
Proof.
  induction tb as [| [r |] tb' IH]; simpl; rewrite ?IH; reflexivity.
Qed.

Lemma mapRows_fixed (f : Row -> Row) (tb : TBody) :
  (forall r, In r (rowsOf tb) -> f r = r) -> mapRows f tb = tb.
Proof.
  intros H. rewrite <- (mapRows_id tb) at 2. apply mapRows_ext_in. exact H.
Qed.

Lemma forEachRow_map (f : Row -> completion Row) (h : Row -> Row) (tb : TBody) :
  (forall r, f r = Normal (h r)) ->
  forEachRow f tb = Normal (mapRows h tb).
Proof.
  intros Hf. induction tb as [| [r |] tb' IH]; simpl.
  - reflexivity.
  - rewrite Hf, IH. reflexivity.
  - rewrite IH. reflexivity.
Qed.

Lemma rowsOf_deleteRowAt_last (tb : TBody) (m : nat) :
  length (rowsOf tb) = S m ->
  rowsOf (deleteRowAt m tb) = removelast (rowsOf tb).
Proof.
  revert m. induction tb as [| [r |] tb' IH]; intros m Hlen; simpl in *.
  - discriminate.
  - injection Hlen as Hlen. destruct m as [| m'].
    + destruct (rowsOf tb'); [reflexivity | discriminate].
    + simpl. rewrite (IH m' Hlen).
      destruct (rowsOf tb'); [discriminate | reflexivity].
  - apply IH. exact Hlen.
Qed.

Lemma rowsOf_dropLastRow (tb : TBody) :
  rowsOf (dropLastRow tb) = removelast (rowsOf tb).
Proof.
  unfold dropLastRow. destruct (length (rowsOf tb)) as [| m] eqn:E.
  - destruct (rowsOf tb); [reflexivity | discriminate].
  - apply rowsOf_deleteRowAt_last. exact E.
Qed.

Lemma deleteRowAt_snoc (tb : TBody) (r : Row) :
  deleteRowAt (length (rowsOf tb)) (tb ++ [Tr r]) = tb.
Proof.
  induction tb as [| [r0 |] tb' IH]; simpl; rewrite ?IH; reflexivity.
Qed.

Lemma dropLastRow_snoc (tb : TBody) (r : Row) :
  dropLastRow (tb ++ [Tr r]) = tb.
Proof.
  unfold dropLastRow. rewrite rowsOf_app, length_app. simpl length.
  replace (length (rowsOf tb) + 1)%nat with (S (length (rowsOf tb))) by lia.
  apply deleteRowAt_snoc.
Qed.

Lemma dropLastRow_no_rows (tb : TBody) :
  rowsOf tb = [] -> dropLastRow tb = tb.
Proof. intros H. unfold dropLastRow. rewrite H. reflexivity. Qed.

Lemma iter_dropLastRow_no_rows (k : nat) (tb : TBody) :
  rowsOf tb = [] -> Nat.iter k dropLastRow tb = tb.
Proof.
  intros H. induction k as [| k' IH]; [reflexivity |].
  cbn [Nat.iter nat_rect]. change (nat_rect _ _ _ k') with
    (Nat.iter k' dropLastRow tb).
  rewrite IH. apply dropLastRow_no_rows, H.
Qed.

Lemma iter_dropLastRow_repeat (tb : TBody) (r : Row) (k : nat) :
  Nat.iter k dropLastRow (tb ++ repeat (Tr r) k) = tb.
Proof.
  induction k as [| k' IH].
  - simpl. apply app_nil_r.
  - rewrite Nat.iter_succ_r, repeat_snoc, app_assoc, dropLastRow_snoc.
    exact IH.
Qed.

Lemma rowsOf_iter_dropLastRow (k : nat) (tb : TBody) :
  rowsOf (Nat.iter k dropLastRow tb)
  = firstn (length (rowsOf tb) - k) (rowsOf tb).
Proof.
  induction k as [| k' IH].
  - simpl. rewrite Nat.sub_0_r, firstn_all. reflexivity.
  - cbn [Nat.iter nat_rect]. change (nat_rect _ _ _ k') with
      (Nat.iter k' dropLastRow tb).
    rewrite rowsOf_dropLastRow, IH, removelast_firstn_pred, firstn_firstn.
    f_equal. rewrite length_firstn. lia.
Qed.

Lemma iter_add {A : Type} (f : A -> A) (m n : nat) (x : A) :
  Nat.iter n f (Nat.iter m f x) = Nat.iter (m + n) f x.
Proof.
  induction n as [| n' IH].
  - rewrite Nat.add_0_r. reflexivity.
  - replace (m + S n')%nat with (S (m + n')) by lia.
    cbn [Nat.iter nat_rect]. f_equal. exact IH.
Qed.

Lemma template_row_is_last (tb : TBody) (ref : Row) :
  lastElementChild tb = Some (Tr ref) ->
  rowsOf tb <> [] /\ last (rowsOf tb) [] = ref.
Proof.
  intros H. destruct (lastElementChild_Some tb _ H) as [tb0 ->].
  rewrite rowsOf_app. simpl. split.
  - intros E. apply app_eq_nil in E. destruct E; discriminate.
  - apply last_last.
Qed.

(** ** The first body of the table *)

Lemma table_eta (f : Table) : mkTable (tBodies f) = f.
Proof. destruct f. reflexivity. Qed.

Lemma setField_same (g : GrowthTable) : setField g (_field g) = g.
Proof. destruct g. reflexivity. Qed.

Lemma getBodyOfField_snd (f : Table) : snd (getBodyOfField f) = body f.
Proof. unfold getBodyOfField, body. destruct (tBodies f); reflexivity. Qed.

Lemma getBodyOfField_pair (f : Table) :
  getBodyOfField f = (fst (getBodyOfField f), body f).
Proof.
  rewrite <- getBodyOfField_snd. destruct (getBodyOfField f). reflexivity.
Qed.

Lemma fieldWith_eq (f : Table) (tb : TBody) :
  fieldWith f tb = mkTable (tb :: tl (tBodies f)).
Proof.
  unfold fieldWith, getBodyOfField, putBody.
  destruct (tBodies f) as [| tb0 rest] eqn:E; simpl; rewrite ?E; reflexivity.
Qed.

Lemma body_fieldWith (f : Table) (tb : TBody) : body (fieldWith f tb) = tb.
Proof. rewrite fieldWith_eq. reflexivity. Qed.

Lemma rows_fieldWith (f : Table) (tb : TBody) :
  rows (fieldWith f tb) = rowsOf tb.
Proof. unfold rows. rewrite body_fieldWith. reflexivity. Qed.

Lemma fieldWith_body (f : Table) (tb : TBody) :
  fst (getBodyOfField (fieldWith f tb)) = fieldWith f tb.
Proof. rewrite fieldWith_eq. reflexivity. Qed.

Lemma fieldWith_fieldWith (f : Table) (tb1 tb2 : TBody) :
  fieldWith (fieldWith f tb1) tb2 = fieldWith f tb2.
Proof. rewrite !fieldWith_eq. reflexivity. Qed.

Lemma fieldWith_own_body (f : Table) :
  fieldWith f (body f) = fst (getBodyOfField f).
Proof.
  rewrite fieldWith_eq. unfold getBodyOfField, body.
  destruct (tBodies f) as [| tb rest] eqn:E; simpl.
  - reflexivity.
  - destruct f as [bs]. simpl in E. rewrite E. reflexivity.
Qed.

Lemma body_getBodyOfField (f : Table) : body (fst (getBodyOfField f)) = body f.
Proof. rewrite <- (fieldWith_own_body f). apply body_fieldWith. Qed.

Lemma rows_getBodyOfField (f : Table) : rows (fst (getBodyOfField f)) = rows f.
Proof. unfold rows. rewrite body_getBodyOfField. reflexivity. Qed.

Lemma getBodyOfField_fst_idem (f : Table) :
  fst (getBodyOfField (fst (getBodyOfField f))) = fst (getBodyOfField f).
Proof. rewrite <- (fieldWith_own_body f). apply fieldWith_body. Qed.

Lemma colCountOf_head (rs : list Row) :
  colCountOf rs = match rs with [] => 0 | r :: _ => Z.of_nat (length r) end.
Proof. destruct rs; reflexivity. Qed.

(** ** Closed forms of the loops and callbacks *)

Lemma setLastInnerHTML_app (html c : Cell) (r : Row) :
  setLastInnerHTML html (r ++ [c]) = Normal (r ++ [reparse html]).
Proof. unfold setLastInnerHTML. rewrite onLast_app. reflexivity. Qed.

Lemma copyCell_spec (cell : Cell) (r : Row) :
  copyCell cell r = Normal (r ++ [reparse cell]).
Proof.
  unfold copyCell, insertCell. rewrite insertAt_append. simpl.
  apply setLastInnerHTML_app.
Qed.

Lemma forEach_copyCell (cells r : Row) :
  forEach copyCell cells r = Normal (r ++ map reparse cells).
Proof.
  revert r. induction cells as [| c cs IH]; intros r; simpl.
  - rewrite app_nil_r. reflexivity.
  - rewrite copyCell_spec. simpl. rewrite IH, <- app_assoc. reflexivity.
Qed.

Lemma insertCopyOf_row (ref : Row) (tb : TBody) :
  insertCopyOf (Tr ref) tb = Normal (tb ++ [Tr (map reparse ref)]).
Proof.
  unfold insertCopyOf. rewrite insertRow_append. cbn [bind cellsOf].
  rewrite onLast_app. cbn [onRow]. rewrite forEach_copyCell. reflexivity.
Qed.

Lemma insertCopyOf_nonrow (tb : TBody) :
  insertCopyOf NonRow tb = Throw TypeError (tb ++ [Tr []]).
Proof. unfold insertCopyOf. rewrite insertRow_append. reflexivity. Qed.

Lemma addRowsLoop_row (maxDim : Z) (ref : Row) (n : nat) (tb : TBody) :
  addRowsLoop maxDim (Tr ref) n tb =
  Normal (tb ++ repeat (Tr (map reparse ref))
                  (added maxDim n (length (rowsOf tb)))).
Proof.
  revert tb. induction n as [| n' IH]; intros tb.
  - simpl. unfold added. simpl.
    replace (Z.to_nat (Z.min 0 (maxDim - Z.of_nat (length (rowsOf tb)))))
      with O by lia.
    simpl. rewrite app_nil_r. reflexivity.
  - cbn [addRowsLoop].
    destruct (Z.of_nat (length (rowsOf tb)) >=? maxDim) eqn:E.
    + rewrite Z.geb_le in E. unfold added.
      replace (Z.to_nat _) with O by lia.
      simpl. rewrite app_nil_r. reflexivity.
    + rewrite Z.geb_leb, Z.leb_gt in E.
      rewrite insertCopyOf_row. cbn [bind]. rewrite IH.
      rewrite rowsOf_app, length_app. simpl length. unfold added.
      replace (Z.to_nat (Z.min (Z.of_nat (S n'))
                           (maxDim - Z.of_nat (length (rowsOf tb)))))
        with (S (Z.to_nat (Z.min (Z.of_nat n')
                             (maxDim - Z.of_nat (length (rowsOf tb) + 1)))))
        by lia.
      simpl repeat. rewrite <- app_assoc. reflexivity.
Qed.

Lemma addRowsLoop_nonrow (maxDim : Z) (n : nat) (tb : TBody) :
  addRowsLoop maxDim NonRow (S n) tb =
  if Z.of_nat (length (rowsOf tb)) >=? maxDim then Normal tb
  else Throw TypeError (tb ++ [Tr []]).
Proof.
  cbn [addRowsLoop]. destruct (Z.of_nat (length (rowsOf tb)) >=? maxDim).
  - reflexivity.
  - rewrite insertCopyOf_nonrow. reflexivity.
Qed.

Lemma removeRowsLoop_spec (minDim : Z) (n : nat) (tb : TBody) :
  removeRowsLoop minDim n tb =
  Normal (Nat.iter (removed minDim n (length (rowsOf tb))) dropLastRow tb).
Proof.
  revert tb. induction n as [| n' IH]; intros tb.
  - simpl. unfold removed. replace (Z.to_nat _) with O by lia. reflexivity.
  - cbn [removeRowsLoop].
    destruct (Z.of_nat (length (rowsOf tb)) <=? minDim) eqn:E.
    + rewrite Z.leb_le in E. unfold removed.
      replace (Z.to_nat _) with O by lia. reflexivity.
    + rewrite Z.leb_gt in E.
      rewrite deleteRow_last. cbn [bind]. rewrite IH.
      destruct (rowsOf tb) as [| r rs] eqn:Er.
      * rewrite (dropLastRow_no_rows tb Er), Er.
        rewrite !iter_dropLastRow_no_rows by exact Er. reflexivity.
      * rewrite rowsOf_dropLastRow, Er, length_removelast_nat.
        replace (removed minDim (S n') (length (r :: rs)))
          with (S (removed minDim n' (length (r :: rs) - 1)))
          by (unfold removed; simpl length in *; lia).
        rewrite Nat.iter_succ_r. reflexivity.
Qed.

Lemma addCol_spec (maxDim : Z) (row : Row) :
  addCol maxDim row = Normal (addCol_pure maxDim row).
Proof.
  unfold addCol, addCol_pure.
  destruct (Z.of_nat (length row) >=? maxDim); [reflexivity |].
  unfold insertCell. rewrite insertAt_append. simpl.
  rewrite setLastInnerHTML_app, (item_last row EmptyString).
  destruct row; reflexivity.
Qed.

Lemma remCol_spec (minDim : Z) (row : Row) :
  remCol minDim row = Normal (remCol_pure minDim row).
Proof.
  unfold remCol, remCol_pure.
  destruct (Z.of_nat (length row) <=? minDim); [reflexivity |].
  unfold deleteCell. apply deleteAt_last.
Qed.

(** ** Closed forms of the methods on the instance *)

Lemma changeRows_closed (delta : Z) (g : GrowthTable) :
  changeRows delta g =
  lift (fun tb' => setField g (fieldWith (_field g) tb'))
    (bodyAfterChangeRows (_minDimCount g) (_maxDimCount g) delta
       (body (_field g))).
Proof.
  unfold changeRows, bodyAfterChangeRows, fieldWith.
  rewrite (getBodyOfField_pair (_field g)). cbn [fst].
  set (f := fst (getBodyOfField (_field g))).
  set (tb := body (_field g)).
  destruct (delta >? 0) eqn:Ed.
  - destruct (lastElementChild tb) as [[ref |] |] eqn:El.
    + rewrite addRowsLoop_row. reflexivity.
    + assert (Hn : exists n, Z.to_nat delta = S n).
      { exists (Z.to_nat delta - 1)%nat.
        rewrite Z.gtb_ltb in Ed. apply Z.ltb_lt in Ed. lia. }
      destruct Hn as [n ->]. rewrite addRowsLoop_nonrow.
      destruct (Z.of_nat (length (rowsOf tb)) >=? _maxDimCount g); reflexivity.
    + cbn [lift]. do 2 f_equal.
      pose proof (fieldWith_own_body (_field g)) as H.
      unfold fieldWith in H. fold f tb in H. symmetry. exact H.
  - rewrite removeRowsLoop_spec. reflexivity.
Qed.

Lemma changeCols_closed (delta : Z) (g : GrowthTable) :
  changeCols delta g =
  Normal (setField g
            (fieldWith (_field g)
               (bodyAfterChangeCols (_minDimCount g) (_maxDimCount g) delta
                  (body (_field g))))).
Proof.
  unfold changeCols, bodyAfterChangeCols, fieldWith.
  rewrite (getBodyOfField_pair (_field g)). cbn [fst].
  destruct (delta >? 0).
  - rewrite (forEachRow_map _ _ _ (addCol_spec (_maxDimCount g))). reflexivity.
  - rewrite (forEachRow_map _ _ _ (remCol_spec (_minDimCount g))). reflexivity.
Qed.

Lemma syncCurrentState_syncedOf (g : GrowthTable) :
  syncCurrentState g = syncedOf g (fst (getBodyOfField (_field g))).
Proof.
  unfold syncCurrentState, syncedOf, writeButtons, flagsOf.
  rewrite rows_getBodyOfField. unfold rows.
  rewrite (getBodyOfField_pair (_field g)).
  rewrite colCountOf_head.
  set (rs := rowsOf (body (_field g))).
  set (R := Z.of_nat (length rs)).
  set (C := match rs with [] => 0 | r :: _ => Z.of_nat (length r) end).
  rewrite !geb_negb_ltb, !leb_negb_gtb.
  destruct (R <? _maxDimCount g), (R >? _minDimCount g),
    (C <? _maxDimCount g), (C >? _minDimCount g); reflexivity.
Qed.

Lemma syncCurrentState_setField (g : GrowthTable) (f : Table) (tb : TBody) :
  syncCurrentState (setField g (fieldWith f tb)) = syncedOf g (fieldWith f tb).
Proof.
  rewrite syncCurrentState_syncedOf. cbn [setField _field].
  rewrite fieldWith_body. reflexivity.
Qed.

Lemma clickHandler_closed (dx dy : Z) (g : GrowthTable) :
  clickHandler dx dy g =
  match bodyAfterClick (_minDimCount g) (_maxDimCount g) dx dy
          (body (_field g)) with
  | Normal tb' => Normal (syncedOf g (fieldWith (_field g) tb'))
  | Throw e tb' => Throw e (setField g (fieldWith (_field g) tb'))
  end.
Proof.
  unfold clickHandler, bodyAfterClick.
  destruct (dy =? 0).
  - cbn [bind]. destruct (dx =? 0); cbn [bind].
    + rewrite syncCurrentState_syncedOf, fieldWith_own_body. reflexivity.
    + rewrite changeCols_closed. cbn [bind].
      rewrite syncCurrentState_setField. reflexivity.
  - rewrite changeRows_closed.
    destruct (bodyAfterChangeRows (_minDimCount g) (_maxDimCount g) dy
                (body (_field g))) as [tb1 | e tb1]; cbn [lift bind].
    + destruct (dx =? 0); cbn [bind].
      * rewrite syncCurrentState_setField. reflexivity.
      * rewrite changeCols_closed. cbn [bind].
        cbn [setField _field _minDimCount _maxDimCount].
        rewrite body_fieldWith, fieldWith_fieldWith.
        rewrite <- (syncCurrentState_setField g).
        reflexivity.
    + reflexivity.
Qed.

(** ** The synchronised instance *)

Lemma writeButtons_over (g : GrowthTable) (st st' : CurrentState)
    (d : Ref -> bool) :
  writeButtons g st (writeButtons g st' d) = writeButtons g st d.
Proof.
  apply functional_extensionality. intros r.
  unfold writeButtons, setDisabled.
  destruct (Nat.eqb r (_remColBtn g)), (Nat.eqb r (_addColBtn g)),
    (Nat.eqb r (_remRowBtn g)), (Nat.eqb r (_addRowBtn g)); reflexivity.
Qed.

Lemma syncedOf_syncedOf (g : GrowthTable) (f1 f2 : Table) :
  syncedOf (syncedOf g f1) f2 = syncedOf g f2.
Proof.
  unfold syncedOf.
  cbn [_minDimCount _maxDimCount _addRowBtn _remRowBtn _addColBtn _remColBtn
       disabled].
  f_equal. apply functional_extensionality. intros r.
  unfold writeButtons, setDisabled.
  cbn [_addRowBtn _remRowBtn _addColBtn _remColBtn].
  destruct (Nat.eqb r (_remColBtn g)), (Nat.eqb r (_addColBtn g)),
    (Nat.eqb r (_remRowBtn g)), (Nat.eqb r (_addRowBtn g)); reflexivity.
Qed.

Lemma syncedOf_setField (g : GrowthTable) (f1 f2 : Table) :
  syncedOf (setField g f1) f2 = syncedOf g f2.
Proof. reflexivity. Qed.

Lemma syncedOf_consistent (g : GrowthTable) (f : Table) (tb : TBody) :
  consistent (syncedOf g (fieldWith f tb)).
Proof.
  unfold consistent. rewrite syncCurrentState_syncedOf.
  cbn [syncedOf _field]. rewrite fieldWith_body.
  apply syncedOf_syncedOf.
Qed.

Lemma syncCurrentState_consistent (g : GrowthTable) :
  consistent (syncCurrentState g).
Proof.
  rewrite syncCurrentState_syncedOf, <- fieldWith_own_body.
  apply syncedOf_consistent.
Qed.

Lemma consistent_syncedOf (g : GrowthTable) :
  consistent g ->
  g = syncedOf g (_field g)
  /\ fieldWith (_field g) (body (_field g)) = _field g.
Proof.
  unfold consistent. intros H.
  assert (Hf : fst (getBodyOfField (_field g)) = _field g).
  { rewrite <- H at 2. rewrite syncCurrentState_syncedOf. reflexivity. }
  split.
  - rewrite <- H at 1. rewrite syncCurrentState_syncedOf, Hf. reflexivity.
  - rewrite fieldWith_own_body. exact Hf.
Qed.

Lemma syncedOf_flags (g : GrowthTable) (f : Table) :
  flagsMatchGrid (syncedOf g f).
Proof.
  unfold flagsMatchGrid, syncedOf, flagsOf, rowCount, colCount.
  cbn [_currentState _field _minDimCount _maxDimCount].
  rewrite colCountOf_head. reflexivity.
Qed.

Lemma syncedOf_buttons (g : GrowthTable) (f : Table) :
  distinctButtons g -> buttonsMatchFlags (syncedOf g f).
Proof.
  unfold distinctButtons, buttonsMatchFlags, syncedOf, writeButtons, setDisabled.
  intros Hd.
  cbn [_currentState disabled _addRowBtn _remRowBtn _addColBtn _remColBtn].
  set (a := _addRowBtn g) in *. set (b := _remRowBtn g) in *.
  set (c := _addColBtn g) in *. set (e := _remColBtn g) in *.
  assert (Hab : a <> b /\ a <> c /\ a <> e /\ b <> c /\ b <> e /\ c <> e).
  { apply NoDup_cons_iff in Hd as [Ha Hd].
    apply NoDup_cons_iff in Hd as [Hb Hd].
    apply NoDup_cons_iff in Hd as [Hc _].
    simpl in Ha, Hb, Hc. intuition congruence. }
  destruct Hab as (Hab & Hac & Hae & Hbc & Hbe & Hce).
  rewrite !Nat.eqb_refl.
  rewrite (proj2 (Nat.eqb_neq a e) Hae), (proj2 (Nat.eqb_neq a c) Hac),
    (proj2 (Nat.eqb_neq a b) Hab), (proj2 (Nat.eqb_neq b e) Hbe),
    (proj2 (Nat.eqb_neq b c) Hbc), (proj2 (Nat.eqb_neq c e) Hce).
  repeat split; reflexivity.
Qed.

Lemma consistent_flags (g : GrowthTable) :
  consistent g -> flagsMatchGrid g.
Proof.
  intros H. destruct (consistent_syncedOf g H) as [E _].
  rewrite E. apply syncedOf_flags.
Qed.

Lemma consistent_buttons (g : GrowthTable) :
  consistent g -> distinctButtons g -> buttonsMatchFlags g.
Proof.
  intros H Hd. destruct (consistent_syncedOf g H) as [E _].
  rewrite E. apply syncedOf_buttons. exact Hd.
Qed.

Lemma syncCurrentState_flags (g : GrowthTable) :
  _currentState (syncCurrentState g) =
  flagsOf (_minDimCount g) (_maxDimCount g) (rows (_field g)).
Proof.
  rewrite syncCurrentState_syncedOf. cbn [syncedOf _currentState].
  rewrite rows_getBodyOfField. reflexivity.
Qed.

Lemma syncCurrentState_rows (g : GrowthTable) :
  rows (_field (syncCurrentState g)) = rows (_field g)
  /\ _minDimCount (syncCurrentState g) = _minDimCount g
  /\ _maxDimCount (syncCurrentState g) = _maxDimCount g.
Proof.
  rewrite syncCurrentState_syncedOf. cbn [syncedOf _field _minDimCount _maxDimCount].
  rewrite rows_getBodyOfField. auto.
Qed.

(** ** The grid after [#changeRows] and [#changeCols] *)

Lemma rowsAfterChangeRows_empty (minDim maxDim delta : Z) :
  rowsAfterChangeRows minDim maxDim delta [] = [].
Proof.
  unfold rowsAfterChangeRows. destruct (delta >? 0); [reflexivity |].
  apply firstn_nil.
Qed.

Lemma rowsAfterChangeRows_add_nonempty (minDim maxDim delta : Z) (rs : list Row) :
  0 < delta -> rs <> [] ->
  rowsAfterChangeRows minDim maxDim delta rs
  = rs ++ repeat (map reparse (last rs []))
            (added maxDim (Z.to_nat delta) (length rs)).
Proof.
  intros Hd Hne. unfold rowsAfterChangeRows. rewrite (gtb_true _ _ Hd).
  destruct rs; [congruence | reflexivity].
Qed.

Lemma rowsAfterChangeRows_remove (minDim maxDim delta : Z) (rs : list Row) :
  delta <= 0 ->
  rowsAfterChangeRows minDim maxDim delta rs
  = firstn (length rs - removed minDim (Z.to_nat (Z.abs delta)) (length rs)) rs.
Proof.
  intros Hd. unfold rowsAfterChangeRows. rewrite (gtb_false _ _ Hd). reflexivity.
Qed.

Lemma length_rowsAfterChangeRows_add (minDim maxDim delta : Z) (rs : list Row) :
  0 < delta -> rs <> [] ->
  Z.of_nat (length (rowsAfterChangeRows minDim maxDim delta rs)) =
  Z.of_nat (length rs)
  + Z.max 0 (Z.min delta (maxDim - Z.of_nat (length rs))).
Proof.
  intros Hd Hne. rewrite rowsAfterChangeRows_add_nonempty by assumption.
  rewrite length_app, repeat_length. unfold added. lia.
Qed.

Lemma length_rowsAfterChangeRows_remove (minDim maxDim delta : Z) (rs : list Row) :
  delta <= 0 ->
  Z.of_nat (length (rowsAfterChangeRows minDim maxDim delta rs)) =
  Z.max 0 (Z.of_nat (length rs)
           - Z.max 0 (Z.min (- delta) (Z.of_nat (length rs) - minDim))).
Proof.
  intros Hd. rewrite rowsAfterChangeRows_remove by exact Hd.
  rewrite length_firstn. unfold removed. lia.
Qed.

Lemma rowsAfterChangeRows_full (minDim maxDim delta : Z) (rs : list Row) :
  0 < delta -> maxDim <= Z.of_nat (length rs) ->
  rowsAfterChangeRows minDim maxDim delta rs = rs.
Proof.
  intros Hd Hfull. destruct rs as [| r rs'].
  - apply rowsAfterChangeRows_empty.
  - rewrite rowsAfterChangeRows_add_nonempty by (lia || discriminate).
    unfold added. replace (Z.to_nat _) with O by lia.
    apply app_nil_r.
Qed.

Lemma rowsAfterChangeRows_low (minDim maxDim delta : Z) (rs : list Row) :
  delta <= 0 -> Z.of_nat (length rs) <= minDim ->
  rowsAfterChangeRows minDim maxDim delta rs = rs.
Proof.
  intros Hd Hlow. rewrite rowsAfterChangeRows_remove by lia.
  unfold removed. replace (Z.to_nat _) with O by lia.
  rewrite Nat.sub_0_r. apply firstn_all.
Qed.

Lemma length_rowsAfterChangeRows_within (minDim maxDim delta : Z) (rs : list Row) :
  minDim <= Z.of_nat (length rs) <= maxDim ->
  minDim <= Z.of_nat (length (rowsAfterChangeRows minDim maxDim delta rs))
         <= maxDim.
Proof.
  intros H. destruct (Z_lt_le_dec 0 delta) as [Hd | Hd].
  - destruct rs as [| r rs'].
    + rewrite rowsAfterChangeRows_empty. exact H.
    + rewrite length_rowsAfterChangeRows_add by (lia || discriminate). lia.
  - rewrite length_rowsAfterChangeRows_remove by lia. lia.
Qed.

(** Every row of the grid after [#changeRows] has the length of a row of
    the grid before. *)
Lemma rowsAfterChangeRows_lengths (minDim maxDim delta : Z) (rs : list Row)
    (r : Row) :
  In r (rowsAfterChangeRows minDim maxDim delta rs) ->
  exists r0, In r0 rs /\ length r = length r0.
Proof.
  unfold rowsAfterChangeRows. destruct (delta >? 0).
  - destruct rs as [| r0 rs']; [intros [] |].
    intros Hin. apply in_app_or in Hin as [Hin | Hin].
    + exists r. auto.
    + apply repeat_spec in Hin. subst r.
      exists (last (r0 :: rs') []). split.
      * apply last_in. discriminate.
      * apply length_map.
  - intros Hin. exists r. split; [eapply in_firstn, Hin | reflexivity].
Qed.


Lemma rectangular_rowsAfterChangeRows (minDim maxDim delta : Z) (rs : list Row) :
  rectangular rs -> rectangular (rowsAfterChangeRows minDim maxDim delta rs).
Proof.
  intros Hrect r1 r2 H1 H2.
  apply rowsAfterChangeRows_lengths in H1 as (a & Ha & ->).
  apply rowsAfterChangeRows_lengths in H2 as (b & Hb & ->).
  apply Hrect; assumption.
Qed.

Lemma rectangular_map (f : Row -> Row) (rs : list Row) :
  (forall r1 r2, length r1 = length r2 -> length (f r1) = length (f r2)) ->
  rectangular rs -> rectangular (map f rs).
Proof.
  intros Hf Hrect r1 r2 H1 H2.
  apply in_map_iff in H1 as (a & <- & Ha).
  apply in_map_iff in H2 as (b & <- & Hb).
  apply Hf, Hrect; assumption.
Qed.

Lemma length_addCol_pure (maxDim : Z) (r : Row) :
  length (addCol_pure maxDim r) =
  if Z.of_nat (length r) >=? maxDim then length r else S (length r).
Proof.
  unfold addCol_pure. destruct (Z.of_nat (length r) >=? maxDim); [reflexivity |].
  rewrite length_app. simpl. lia.
Qed.

Lemma length_remCol_pure (minDim : Z) (r : Row) :
  length (remCol_pure minDim r) =
  if Z.of_nat (length r) <=? minDim then length r else (length r - 1)%nat.
Proof.
  unfold remCol_pure. destruct (Z.of_nat (length r) <=? minDim); [reflexivity |].
  apply length_removelast_nat.
Qed.

Lemma rectangular_rowsAfterChangeCols (minDim maxDim delta : Z) (rs : list Row) :
  rectangular rs -> rectangular (rowsAfterChangeCols minDim maxDim delta rs).
Proof.
  unfold rowsAfterChangeCols. destruct (delta >? 0); apply rectangular_map.
  - intros r1 r2 E. rewrite !length_addCol_pure, E. reflexivity.
  - intros r1 r2 E. rewrite !length_remCol_pure, E. reflexivity.
Qed.

Lemma length_rowsAfterChangeCols (minDim maxDim delta : Z) (rs : list Row) :
  length (rowsAfterChangeCols minDim maxDim delta rs) = length rs.
Proof. unfold rowsAfterChangeCols. destruct (delta >? 0); apply length_map. Qed.

Lemma rowsAfterChangeCols_within (minDim maxDim delta : Z) (rs : list Row) :
  Forall (fun r : Row => minDim <= Z.of_nat (length r) <= maxDim) rs ->
  Forall (fun r : Row => minDim <= Z.of_nat (length r) <= maxDim)
    (rowsAfterChangeCols minDim maxDim delta rs).
Proof.
  intros H. unfold rowsAfterChangeCols.
  destruct (delta >? 0); apply Forall_map; eapply Forall_impl; try exact H;
    cbv beta; intros r Hr.
  - rewrite length_addCol_pure.
    destruct (Z.of_nat (length r) >=? maxDim) eqn:E; [exact Hr |].
    rewrite Z.geb_leb, Z.leb_gt in E. lia.
  - rewrite length_remCol_pure.
    destruct (Z.of_nat (length r) <=? minDim) eqn:E; [exact Hr |].
    rewrite Z.leb_gt in E. lia.
Qed.



Lemma rectangular_colCountOf (rs : list Row) (r : Row) :
  rectangular rs -> In r rs -> Z.of_nat (length r) = colCountOf rs.
Proof.
  intros Hrect Hin. rewrite colCountOf_head.
  destruct rs as [| r0 rs']; [contradiction |].
  f_equal. apply Hrect; [exact Hin | left; reflexivity].
Qed.

(** ** From the children of the body to the grid *)

Lemma rowsOf_bodyAfterChangeCols (minDim maxDim delta : Z) (tb : TBody) :
  rowsOf (bodyAfterChangeCols minDim maxDim delta tb)
  = rowsAfterChangeCols minDim maxDim delta (rowsOf tb).
Proof.
  unfold bodyAfterChangeCols, rowsAfterChangeCols.
  destruct (delta >? 0); apply rowsOf_mapRows.
Qed.

Lemma bodyAfterChangeRows_rows (minDim maxDim delta : Z) (tb tb' : TBody) :
  bodyAfterChangeRows minDim maxDim delta tb = Normal tb' ->
  rowsOf tb' = rowsAfterChangeRows minDim maxDim delta (rowsOf tb).
Proof.
  unfold bodyAfterChangeRows.
  destruct (Z_lt_le_dec 0 delta) as [Hd | Hd].
  - rewrite (gtb_true _ _ Hd).
    destruct (lastElementChild tb) as [[ref |] |] eqn:El.
    + intros H. injection H as <-.
      destruct (template_row_is_last tb ref El) as [Hne Hlast].
      rewrite rowsAfterChangeRows_add_nonempty by assumption.
      rewrite rowsOf_app, rowsOf_repeat_Tr, Hlast. reflexivity.
    + destruct (Z.of_nat (length (rowsOf tb)) >=? maxDim) eqn:E;
        [| discriminate].
      intros H. injection H as <-.
      rewrite Z.geb_leb, Z.leb_le in E.
      symmetry. apply rowsAfterChangeRows_full; assumption.
    + intros H. injection H as <-.
      rewrite (lastElementChild_None tb El). simpl.
      symmetry. apply rowsAfterChangeRows_empty.
  - rewrite (gtb_false _ _ Hd). intros H. injection H as <-.
    rewrite rowsOf_iter_dropLastRow.
    symmetry. apply rowsAfterChangeRows_remove. exact Hd.
Qed.

Lemma bodyAfterChangeRows_returns (minDim maxDim delta : Z) (tb : TBody) :
  lastElementChild tb <> Some NonRow ->
  returns (bodyAfterChangeRows minDim maxDim delta tb).
Proof.
  intros H. unfold bodyAfterChangeRows, returns.
  destruct (delta >? 0); [| eauto].
  destruct (lastElementChild tb) as [[ref |] |]; eauto. congruence.
Qed.

Lemma bodyAfterChangeRows_remove_returns (minDim maxDim delta : Z) (tb : TBody) :
  delta <= 0 -> returns (bodyAfterChangeRows minDim maxDim delta tb).
Proof.
  intros H. unfold bodyAfterChangeRows, returns.
  rewrite (gtb_false _ _ H). eauto.
Qed.

Lemma bodyAfterChangeRows_full (minDim maxDim delta : Z) (tb : TBody) :
  0 < delta -> maxDim <= Z.of_nat (length (rowsOf tb)) ->
  bodyAfterChangeRows minDim maxDim delta tb = Normal tb.
Proof.
  intros Hd Hfull. unfold bodyAfterChangeRows. rewrite (gtb_true _ _ Hd).
  destruct (lastElementChild tb) as [[ref |] |].
  - unfold added. replace (Z.to_nat _) with O by lia.
    simpl. rewrite app_nil_r. reflexivity.
  - rewrite geb_true by exact Hfull. reflexivity.
  - reflexivity.
Qed.

Lemma bodyAfterChangeRows_low (minDim maxDim delta : Z) (tb : TBody) :
  delta <= 0 -> Z.of_nat (length (rowsOf tb)) <= minDim ->
  bodyAfterChangeRows minDim maxDim delta tb = Normal tb.
Proof.
  intros Hd Hlow. unfold bodyAfterChangeRows. rewrite (gtb_false _ _ Hd).
  unfold removed. replace (Z.to_nat _) with O by lia. reflexivity.
Qed.

Lemma bodyAfterChangeRows_throws (minDim maxDim delta : Z) (tb : TBody) :
  0 < delta -> lastElementChild tb = Some NonRow ->
  Z.of_nat (length (rowsOf tb)) < maxDim ->
  bodyAfterChangeRows minDim maxDim delta tb = Throw TypeError (tb ++ [Tr []]).
Proof.
  intros Hd El Hlt. unfold bodyAfterChangeRows.
  rewrite (gtb_true _ _ Hd), El, geb_false by exact Hlt. reflexivity.
Qed.

(** [#changeRows] when the row to copy is a row or there is none, and
    whenever it removes: it returns, with this grid and the limits it had. *)
Lemma changeRows_returns (delta : Z) (g : GrowthTable) :
  templateIsRow g \/ delta <= 0 ->
  exists g', changeRows delta g = Normal g'
    /\ rows (_field g')
       = rowsAfterChangeRows (_minDimCount g) (_maxDimCount g) delta
           (rows (_field g))
    /\ _minDimCount g' = _minDimCount g
    /\ _maxDimCount g' = _maxDimCount g.
Proof.
  intros H.
  assert (Hret : returns (bodyAfterChangeRows (_minDimCount g) (_maxDimCount g)
                            delta (body (_field g)))).
  { destruct H as [H | H];
      [apply bodyAfterChangeRows_returns, H
      | apply bodyAfterChangeRows_remove_returns, H]. }
  destruct Hret as [tb' Htb]. rewrite changeRows_closed, Htb. cbn [lift].
  eexists. split; [reflexivity |]. cbn [setField _field _minDimCount _maxDimCount].
  rewrite rows_fieldWith. split; [| auto].
  apply bodyAfterChangeRows_rows, Htb.
Qed.

(** [#changeCols] returns in every state, with this grid and the limits it
    had. *)
Lemma changeCols_returns (delta : Z) (g : GrowthTable) :
  exists g', changeCols delta g = Normal g'
    /\ rows (_field g')
       = rowsAfterChangeCols (_minDimCount g) (_maxDimCount g) delta
           (rows (_field g))
    /\ _minDimCount g' = _minDimCount g
    /\ _maxDimCount g' = _maxDimCount g.
Proof.
  rewrite changeCols_closed. eexists. split; [reflexivity |].
  cbn [setField _field _minDimCount _maxDimCount].
  rewrite rows_fieldWith, rowsOf_bodyAfterChangeCols. auto.
Qed.

Lemma changeCols_sign (d1 d2 : Z) (g : GrowthTable) :
  (0 < d1 <-> 0 < d2) -> changeCols d1 g = changeCols d2 g.
Proof.
  intros H. rewrite !changeCols_closed. unfold bodyAfterChangeCols.
  destruct (Z_lt_le_dec 0 d1) as [H1 | H1].
  - rewrite !gtb_true by (try apply H; lia). reflexivity.
  - rewrite !gtb_false; [reflexivity | | lia].
    destruct (Z_lt_le_dec 0 d2) as [H2 | H2]; [apply H in H2; lia | lia].
Qed.

(** ** The capability flags *)

(** C2. [refreshCapabilities] returns the four flags
    [canAddY = (R < maxDim)], [canRemY = (R > minDim)],
    [canAddX = (C < maxDim)], [canRemX = (C > minDim)], where [R] is the
    number of rows and [C] the number of cells of the first row, [0] without
    rows.  ([Y] is the row axis, [X] the column axis.) *)
Theorem refreshCapabilities_flags (g : GrowthTable) :
  let R := Z.of_nat (length (rows (_field g))) in
  let C := match rows (_field g) with
           | [] => 0
           | r :: _ => Z.of_nat (length r)
           end in
  refreshCapabilities g =
  {| canAddX := C <? _maxDimCount g;
     canRemX := C >? _minDimCount g;
     canAddY := R <? _maxDimCount g;
     canRemY := R >? _minDimCount g |}.
Proof.
  unfold refreshCapabilities. rewrite syncCurrentState_flags. reflexivity.
Qed.


(** C10. For every state and every [delta <> 0], [#changeCols(delta)] returns
    the same as for the sign of [delta], and the click handler of a column
    button runs it and then synchronises; it keeps the rows in place; for
    [delta > 0] every row with fewer than [maxDim] cells has one cell more
    and the others are as they were; for [delta < 0] every row with more
    than [minDim] cells has lost its last cell, which is one cell fewer when
    [minDim >= 0], and the others are as they were. *)
Theorem changeCols_one_cell_per_row (g : GrowthTable) (delta : Z) :
  delta <> 0 ->
  changeCols delta g = changeCols (Z.sgn delta) g
  /\ exists g', changeCols delta g = Normal g'
     /\ clickHandler delta 0 g = Normal (syncCurrentState g')
     /\ length (rows (_field g')) = length (rows (_field g))
     /\ forall i r, nth_error (rows (_field g)) i = Some r ->
        exists r', nth_error (rows (_field g')) i = Some r'
          /\ (0 < delta ->
              (Z.of_nat (length r) < _maxDimCount g ->
               Z.of_nat (length r') = Z.of_nat (length r) + 1)
              /\ (_maxDimCount g <= Z.of_nat (length r) -> r' = r))
          /\ (delta < 0 ->
              (_minDimCount g < Z.of_nat (length r) ->
               r' = removelast r
               /\ (0 <= _minDimCount g ->
                   Z.of_nat (length r') = Z.of_nat (length r) - 1))
              /\ (Z.of_nat (length r) <= _minDimCount g -> r' = r)).
Proof.
  intros Hnz. split; [apply changeCols_sign; lia |].
  destruct (changeCols_returns delta g) as (g' & Hrun & Hrows & _).
  exists g'. split; [exact Hrun |]. split.
  { unfold clickHandler. cbn [Z.eqb bind].
    replace (delta =? 0) with false by (symmetry; apply Z.eqb_neq; exact Hnz).
    rewrite Hrun. reflexivity. }
  rewrite Hrows. unfold rowsAfterChangeCols. split.
  - destruct (delta >? 0); apply length_map.
  - intros i r Hr.
    destruct (Z_lt_le_dec 0 delta) as [Hpos | Hneg].
    + rewrite gtb_true by lia. rewrite nth_error_map, Hr. simpl.
      eexists. split; [reflexivity |]. split; [| intros; lia].
      intros _. unfold addCol_pure. split; intros Hlen.
      * rewrite geb_false by lia. rewrite length_app. simpl. lia.
      * rewrite geb_true by lia. reflexivity.
    + rewrite gtb_false by lia. rewrite nth_error_map, Hr. simpl.
      eexists. split; [reflexivity |]. split; [intros; lia |].
      intros _. unfold remCol_pure. split; intros Hlen.
      * rewrite leb_false by lia.
        split; [reflexivity |]. intros Hmin.
        apply length_removelast_Z. intros E. rewrite E in Hlen.
        simpl in Hlen. lia.
      * rewrite leb_true by lia. reflexivity.
Qed.

(** ** The operations at their bounds, and [growRows] behind an element that
    is not a row *)

(** C6. For every [k >= 1] and every state, [growRows(k)] on a grid with
    [maxDim] rows or more and [shrinkRows(k)] on a grid with [minDim] rows or
    fewer return normally with the grid as it was; [growCols(k)] and
    [shrinkCols(k)] return normally in every state, with the grid as it was
    when every row is at the bound. *)
Theorem at_bound_silent_noop (g : GrowthTable) (k : Z) :
  1 <= k ->
  (_maxDimCount g <= rowCount g ->
   exists g', growRows k g = Normal g'
     /\ rows (_field g') = rows (_field g) /\ rowCount g' = rowCount g)
  /\ (rowCount g <= _minDimCount g ->
      exists g', shrinkRows k g = Normal g'
        /\ rows (_field g') = rows (_field g) /\ rowCount g' = rowCount g)
  /\ (exists g', growCols k g = Normal g'
        /\ ((forall r, In r (rows (_field g)) ->
                       _maxDimCount g <= Z.of_nat (length r)) ->
            rows (_field g') = rows (_field g)))
  /\ (exists g', shrinkCols k g = Normal g'
        /\ ((forall r, In r (rows (_field g)) ->
                       Z.of_nat (length r) <= _minDimCount g) ->
            rows (_field g') = rows (_field g))).
Proof.
  intros Hk. unfold growRows, shrinkRows, growCols, shrinkCols, rowCount, rows.
  split; [| split; [| split]].
  - intros Hfull. rewrite changeRows_closed.
    rewrite bodyAfterChangeRows_full by (lia || exact Hfull).
    eexists. split; [reflexivity |]. cbn [setField _field].
    rewrite body_fieldWith. auto.
  - intros Hlow. rewrite changeRows_closed.
    rewrite bodyAfterChangeRows_low by (lia || exact Hlow).
    eexists. split; [reflexivity |]. cbn [setField _field].
    rewrite body_fieldWith. auto.
  - rewrite changeCols_closed. eexists. split; [reflexivity |].
    intros Hfull. cbn [setField _field]. rewrite body_fieldWith.
    unfold bodyAfterChangeCols. rewrite gtb_true by lia.
    rewrite rowsOf_mapRows. apply map_fixed. intros r Hin.
    unfold addCol_pure. rewrite geb_true by (apply Hfull, Hin). reflexivity.
  - rewrite changeCols_closed. eexists. split; [reflexivity |].
    intros Hlow. cbn [setField _field]. rewrite body_fieldWith.
    unfold bodyAfterChangeCols. rewrite gtb_false by lia.
    rewrite rowsOf_mapRows. apply map_fixed. intros r Hin.
    unfold remCol_pure. rewrite leb_true by (apply Hlow, Hin). reflexivity.
Qed.

(** C1, at the failing input.  On a body of two rows followed by a
    [template] element, with limits 2 and 10, the row count is within the
    limits; [growRows(2)] throws [TypeError] and leaves three rows, where
    [min (2 + 2) 10 = 4]. *)
Theorem growRows_after_template_throws :
  _minDimCount templateTable <= rowCount templateTable
                             <= _maxDimCount templateTable
  /\ exists g', growRows 2 templateTable = Throw TypeError g'
    /\ rowCount templateTable = 2
    /\ rowCount g' = 3
    /\ Z.min (rowCount templateTable + 2) (_maxDimCount templateTable) = 4.
Proof.
  split; [split; discriminate |].
  eexists. repeat split; reflexivity.
Qed.

(** C5, at the failing input.  The body of two rows of two cells followed by
    a [template] element holds a rectangular grid; [growRows(1)] throws
    [TypeError] and leaves a third row without cells: the grid is no longer
    rectangular. *)
Theorem growRows_after_template_leaves_ragged :
  rectangular (rows (_field templateTable))
  /\ exists g', growRows 1 templateTable = Throw TypeError g'
       /\ rows (_field g') = [["a"; "b"]; ["c"; "d"]; []]%string
       /\ ~ rectangular (rows (_field g')).
Proof.
  split.
  - intros r1 r2 H1 H2. simpl in H1, H2.
    destruct H1 as [<- | [<- | []]]; destruct H2 as [<- | [<- | []]];
      reflexivity.
  - eexists. split; [reflexivity |]. split; [reflexivity |].
    intros H. specialize (H ["a"; "b"]%string []).
    assert (E : length ["a"; "b"]%string = length (@nil Cell)).
    { apply H; simpl; auto. }
    discriminate.
Qed.

(** C8, at the failing input.  A body that holds a [template] element and no
    row has no rows, yet [growRows(3)] inserts a row and throws [TypeError];
    [refreshCapabilities] takes the column count of that grid to be [0]. *)
Theorem growRows_on_template_only_throws :
  rows (_field templateOnlyTable) = []
  /\ (exists g', growRows 3 templateOnlyTable = Throw TypeError g'
        /\ rows (_field g') = [[]])
  /\ colCount templateOnlyTable = 0.
Proof.
  split; [reflexivity |]. split; [| reflexivity].
  eexists. split; reflexivity.
Qed.

(** C3, at the failing input.  [growCols(2)] on a row of one cell, below
    [maxDim = 10], returns with two cells in that row, not three. *)
Theorem growCols_adds_one_cell_for_count_two :
  exists g', growCols 2 (instanceOf 2 10 [Tr ["a"%string]]) = Normal g'
    /\ rows (_field g') = [["a"%string; reparse "a"%string]]
    /\ (forall r, In r (rows (_field g')) -> length r = 2%nat)
    /\ (1 + 2 <> 2)%nat.
Proof.
  eexists. split; [reflexivity |]. split; [reflexivity |]. split.
  - intros r [<- | []]. reflexivity.
  - discriminate.
Qed.

(** C7, at the failing input.  On a body of the rows [x, y, z] and
    [a, b, c] followed by a [template] element, with [maxDim = 10],
    [growRows(2)] throws [TypeError] and leaves three rows, the third without
    cells: the row it appended is no copy of the last row, and there is no
    fourth row. *)
Theorem growRows_after_template_appends_empty_row :
  rows (_field abcTemplateTable) = [["x"; "y"; "z"]; ["a"; "b"; "c"]]%string
  /\ _maxDimCount abcTemplateTable = 10
  /\ exists g', growRows 2 abcTemplateTable = Throw TypeError g'
       /\ rows (_field g')
          = [["x"; "y"; "z"]; ["a"; "b"; "c"]; []]%string
       /\ nth_error (rows (_field g')) 2 <> Some ["a"; "b"; "c"]%string
       /\ nth_error (rows (_field g')) 3 = None.
Proof.
  split; [reflexivity |]. split; [reflexivity |].
  eexists. split; [reflexivity |]. split; [reflexivity |].
  split; [discriminate | reflexivity].
Qed.

(** X24. What [growRows] copies.  On a body whose last element child is a
    row, [growRows(k)], [k >= 1], keeps the rows there were, and every row it
    appends holds the cells of the row that was last when the call started,
    each as the parser re-serialises it; when that leaves the cells as they
    are, every appended row equals the last row of the grid as it was when
    that row was inserted.  A grid of two rows whose last row is [a, b, c],
    cells that re-parse to themselves, with [maxDim = 10], has after
    [growRows(2)] four rows, the third and the fourth being [a, b, c]. *)
Theorem growRows_copies_last_row (g : GrowthTable) (k : Z) :
  1 <= k ->
  templateIsRow g ->
  (exists g', growRows k g = Normal g'
     /\ firstn (length (rows (_field g))) (rows (_field g')) = rows (_field g)
     /\ forall i,
          (length (rows (_field g)) <= i < length (rows (_field g')))%nat ->
          nth_error (rows (_field g')) i
          = Some (map reparse (last (rows (_field g)) []))
          /\ (map reparse (last (rows (_field g)) [])
              = last (rows (_field g)) [] ->
              nth_error (rows (_field g')) i
              = Some (last (firstn i (rows (_field g'))) [])))
  /\ (forall r1 : Row,
        rows (_field g) = [r1; ["a"; "b"; "c"]%string] ->
        map reparse ["a"; "b"; "c"]%string = ["a"; "b"; "c"]%string ->
        _maxDimCount g = 10 ->
        exists g', growRows 2 g = Normal g'
          /\ rows (_field g')
             = [r1; ["a"; "b"; "c"]; ["a"; "b"; "c"]; ["a"; "b"; "c"]]%string).
Proof.
  intros Hk Htpl. unfold growRows. split.
  - destruct (changeRows_returns k g (or_introl Htpl))
      as (g' & Hrun & Hrows & _).
    exists g'. split; [exact Hrun |]. rewrite Hrows.
    destruct (rows (_field g)) as [| r0 rs0] eqn:Er.
    + rewrite rowsAfterChangeRows_empty. split; [reflexivity |].
      intros i Hi. simpl in Hi. lia.
    + set (rs := r0 :: rs0) in *.
      assert (Hne : rs <> []) by discriminate.
      rewrite rowsAfterChangeRows_add_nonempty by (lia || exact Hne).
      set (x := map reparse (last rs [])).
      set (n := added (_maxDimCount g) (Z.to_nat k) (length rs)).
      clearbody rs. split.
      * rewrite firstn_app, firstn_all, Nat.sub_diag. simpl. apply app_nil_r.
      * intros i Hi. rewrite length_app, repeat_length in Hi.
        assert (Hnth : nth_error (rs ++ repeat x n) i = Some x).
        { rewrite nth_error_app.
          replace (i <? length rs)%nat with false
            by (symmetry; apply Nat.ltb_ge; lia).
          apply nth_error_repeat. lia. }
        split; [exact Hnth |]. intros Hstable. rewrite Hnth. f_equal.
        rewrite firstn_app, firstn_all2 by lia.
        rewrite firstn_repeat_le by lia.
        symmetry. apply last_app_repeat. symmetry. exact Hstable.
  - intros r1 Hgrid Hstable Hmax.
    destruct (changeRows_returns 2 g (or_introl Htpl))
      as (g' & Hrun & Hrows & _).
    exists g'. split; [exact Hrun |].
    rewrite Hrows, Hgrid, Hmax.
    unfold rowsAfterChangeRows. cbn [Z.gtb Z.compare last].
    rewrite Hstable. reflexivity.
Qed.

(** ** Construction *)



(** ** One call of a click handler *)

Lemma rowsOnly_templateIsRow (g : GrowthTable) : rowsOnly g -> templateIsRow g.
Proof.
  unfold rowsOnly, templateIsRow. intros H E.
  destruct (lastElementChild_Some _ _ E) as [tb0 Etb].
  rewrite Etb in H. apply Forall_app in H as [_ H].
  inversion H as [| ? ? Hc _]. congruence.
Qed.

Lemma bodyAfterClick_returns (minDim maxDim dx dy : Z) (tb : TBody) :
  lastElementChild tb <> Some NonRow \/ dy <= 0 ->
  exists tb', bodyAfterClick minDim maxDim dx dy tb = Normal tb'
    /\ rowsOf tb' = rowsAfterClick minDim maxDim dx dy (rowsOf tb).
Proof.
  intros H. unfold bodyAfterClick, rowsAfterClick.
  destruct (dy =? 0).
  - cbn [bind]. eexists. split; [reflexivity |].
    destruct (dx =? 0); [reflexivity | apply rowsOf_bodyAfterChangeCols].
  - assert (Hret : returns (bodyAfterChangeRows minDim maxDim dy tb)).
    { destruct H as [H | H];
        [apply bodyAfterChangeRows_returns, H
        | apply bodyAfterChangeRows_remove_returns, H]. }
    destruct Hret as [tb1 Htb1]. rewrite Htb1. cbn [bind].
    apply bodyAfterChangeRows_rows in Htb1.
    eexists. split; [reflexivity |].
    destruct (dx =? 0); [exact Htb1 |].
    rewrite rowsOf_bodyAfterChangeCols, Htb1. reflexivity.
Qed.

(** When the row to copy is a row or there is none, and whenever [dy <= 0],
    the handler returns, synchronised, with this grid. *)
Lemma clickHandler_returns (dx dy : Z) (g : GrowthTable) :
  templateIsRow g \/ dy <= 0 ->
  exists tb',
    clickHandler dx dy g = Normal (syncedOf g (fieldWith (_field g) tb'))
    /\ bodyAfterClick (_minDimCount g) (_maxDimCount g) dx dy (body (_field g))
       = Normal tb'
    /\ rowsOf tb'
       = rowsAfterClick (_minDimCount g) (_maxDimCount g) dx dy
           (rows (_field g)).
Proof.
  intros H.
  destruct (bodyAfterClick_returns (_minDimCount g) (_maxDimCount g) dx dy
              (body (_field g)) H) as (tb' & Hrun & Hrows).
  exists tb'. rewrite clickHandler_closed, Hrun. auto.
Qed.

Lemma rectangular_rowsAfterClick (minDim maxDim dx dy : Z) (rs : list Row) :
  rectangular rs -> rectangular (rowsAfterClick minDim maxDim dx dy rs).
Proof.
  intros Hrect. unfold rowsAfterClick.
  destruct (dx =? 0); destruct (dy =? 0);
    repeat first [ exact Hrect
                 | apply rectangular_rowsAfterChangeCols
                 | apply rectangular_rowsAfterChangeRows ].
Qed.

Lemma within_rowsAfterClick (minDim maxDim dx dy : Z) (rs : list Row) :
  minDim <= Z.of_nat (length rs) <= maxDim ->
  Forall (fun r : Row => minDim <= Z.of_nat (length r) <= maxDim) rs ->
  minDim <= Z.of_nat (length (rowsAfterClick minDim maxDim dx dy rs)) <= maxDim
  /\ Forall (fun r : Row => minDim <= Z.of_nat (length r) <= maxDim)
       (rowsAfterClick minDim maxDim dx dy rs).
Proof.
  intros HR HC. unfold rowsAfterClick.
  set (rs1 := if dy =? 0 then rs
              else rowsAfterChangeRows minDim maxDim dy rs).
  assert (H1 : minDim <= Z.of_nat (length rs1) <= maxDim
               /\ Forall (fun r : Row => minDim <= Z.of_nat (length r)
                                         <= maxDim) rs1).
  { subst rs1. destruct (dy =? 0); [auto |]. split.
    - apply length_rowsAfterChangeRows_within, HR.
    - apply Forall_forall. intros r Hin.
      apply rowsAfterChangeRows_lengths in Hin as (r0 & Hin & ->).
      rewrite Forall_forall in HC. apply HC, Hin. }
  destruct H1 as [HR1 HC1]. destruct (dx =? 0); [auto |]. split.
  - rewrite length_rowsAfterChangeCols. exact HR1.
  - apply rowsAfterChangeCols_within, HC1.
Qed.




Lemma bodyAfterClick_rows_only (minDim maxDim dy : Z) (tb : TBody) :
  dy <> 0 ->
  bodyAfterClick minDim maxDim 0 dy tb = bodyAfterChangeRows minDim maxDim dy tb.
Proof.
  intros H. unfold bodyAfterClick. cbn [Z.eqb].
  replace (dy =? 0) with false by (symmetry; apply Z.eqb_neq; exact H).
  destruct (bodyAfterChangeRows minDim maxDim dy tb); reflexivity.
Qed.

Lemma bodyAfterClick_cols_only (minDim maxDim dx : Z) (tb : TBody) :
  dx <> 0 ->
  bodyAfterClick minDim maxDim dx 0 tb
  = Normal (bodyAfterChangeCols minDim maxDim dx tb).
Proof.
  intros H. unfold bodyAfterClick. cbn [Z.eqb bind].
  replace (dx =? 0) with false by (symmetry; apply Z.eqb_neq; exact H).
  reflexivity.
Qed.

(** X1. When the element [#changeRows] takes as the row to copy is a row or
    there is none, and whenever [dy <= 0], the function returned by
    [clickHandler(dx, dy)] returns normally; it leaves the limits and the
    button references alone and leaves the instance synchronised: the flags
    are those of the grid it leaves, and when the four buttons are four
    elements the [disabled] state of each is the negation of its flag. *)
Theorem clickHandler_leaves_instance_synchronised
    (dx dy : Z) (g : GrowthTable) :
  templateIsRow g \/ dy <= 0 ->
  exists g', clickHandler dx dy g = Normal g'
    /\ _minDimCount g' = _minDimCount g
    /\ _maxDimCount g' = _maxDimCount g
    /\ consistent g'
    /\ flagsMatchGrid g'
    /\ (distinctButtons g -> buttonsMatchFlags g').
Proof.
  intros H. destruct (clickHandler_returns dx dy g H) as (tb' & Hrun & _).
  rewrite Hrun. eexists. split; [reflexivity |].
  split; [reflexivity |]. split; [reflexivity |].
  split; [apply syncedOf_consistent |].
  split; [apply syncedOf_flags | apply syncedOf_buttons].
Qed.

(** X3. When the number of rows and the number of cells of every row are
    within the limits, and the row to copy is a row (or [dy <= 0]), they are
    within the limits again after the function returned by
    [clickHandler(dx, dy)], for every [dx] and [dy]. *)
Theorem clickHandler_keeps_within_bounds (dx dy : Z) (g : GrowthTable) :
  withinBounds g ->
  templateIsRow g \/ dy <= 0 ->
  exists g', clickHandler dx dy g = Normal g' /\ withinBounds g'.
Proof.
  intros [HR HC] H.
  destruct (clickHandler_returns dx dy g H) as (tb' & Hrun & _ & Hrows).
  rewrite Hrun. eexists. split; [reflexivity |].
  unfold withinBounds, rowCount in *.
  cbn [syncedOf _field _minDimCount _maxDimCount].
  rewrite rows_fieldWith, Hrows.
  apply within_rowsAfterClick; assumption.
Qed.

(** X4. A rectangular grid is rectangular again after the function returned
    by [clickHandler(dx, dy)], when the row to copy is a row (or [dy <= 0]),
    also when both [dx] and [dy] are non-zero: the rows are changed first, so
    a row just added takes part in the column change. *)
Theorem clickHandler_keeps_rectangular (dx dy : Z) (g : GrowthTable) :
  rectangular (rows (_field g)) ->
  templateIsRow g \/ dy <= 0 ->
  exists g', clickHandler dx dy g = Normal g'
    /\ rectangular (rows (_field g')).
Proof.
  intros Hrect H.
  destruct (clickHandler_returns dx dy g H) as (tb' & Hrun & _ & Hrows).
  rewrite Hrun. eexists. split; [reflexivity |].
  cbn [syncedOf _field]. rewrite rows_fieldWith, Hrows.
  apply rectangular_rowsAfterClick, Hrect.
Qed.



(** X18. With limits [1 <= minDim] and a grid of [R] rows,
    [minDim <= R <= maxDim], on a body whose last element child is a row,
    [growRows(k)] returns with [min (R + k) maxDim] rows; [shrinkRows(k)]
    returns with [max (R - k) minDim] rows on every body; for every
    [k >= 1]. *)
Theorem growRows_shrinkRows_rowCount (g : GrowthTable) (k : Z) :
  1 <= _minDimCount g ->
  _minDimCount g <= rowCount g <= _maxDimCount g ->
  1 <= k ->
  (templateIsRow g ->
   exists g', growRows k g = Normal g'
     /\ rowCount g' = Z.min (rowCount g + k) (_maxDimCount g))
  /\ (exists g', shrinkRows k g = Normal g'
     /\ rowCount g' = Z.max (rowCount g - k) (_minDimCount g)).
Proof.
  intros Hmin HR Hk. unfold rowCount, growRows, shrinkRows in *. split.
  - intros Htpl.
    destruct (changeRows_returns k g (or_introl Htpl))
      as (g' & Hrun & Hrows & _).
    exists g'. split; [exact Hrun |]. rewrite Hrows.
    rewrite length_rowsAfterChangeRows_add; [lia | lia |].
    intros E. rewrite E in HR. simpl in HR. lia.
  - destruct (changeRows_returns (- k) g) as (g' & Hrun & Hrows & _);
      [right; lia |].
    exists g'. split; [exact Hrun |]. rewrite Hrows.
    rewrite length_rowsAfterChangeRows_remove; lia.
Qed.

(** X19. A rectangular grid is rectangular again after [shrinkRows],
    [growCols] and [shrinkCols] in every state and for every count, and
    after [growRows] on a body whose last element child is a row; each of
    them then returns normally. *)
Theorem rectangular_preserved (g : GrowthTable) (k : Z) :
  rectangular (rows (_field g)) ->
  (templateIsRow g ->
   exists g', growRows k g = Normal g' /\ rectangular (rows (_field g')))
  /\ (0 <= k ->
      exists g', shrinkRows k g = Normal g' /\ rectangular (rows (_field g')))
  /\ (exists g', growCols k g = Normal g' /\ rectangular (rows (_field g')))
  /\ (exists g', shrinkCols k g = Normal g' /\ rectangular (rows (_field g'))).
Proof.
  intros Hrect. unfold growRows, shrinkRows, growCols, shrinkCols.
  split; [| split; [| split]].
  - intros Htpl.
    destruct (changeRows_returns k g (or_introl Htpl))
      as (g' & Hrun & Hrows & _).
    exists g'. split; [exact Hrun |]. rewrite Hrows.
    apply rectangular_rowsAfterChangeRows, Hrect.
  - intros Hk.
    destruct (changeRows_returns (- k) g) as (g' & Hrun & Hrows & _);
      [right; lia |].
    exists g'. split; [exact Hrun |]. rewrite Hrows.
    apply rectangular_rowsAfterChangeRows, Hrect.
  - destruct (changeCols_returns k g) as (g' & Hrun & Hrows & _).
    exists g'. split; [exact Hrun |]. rewrite Hrows.
    apply rectangular_rowsAfterChangeCols, Hrect.
  - destruct (changeCols_returns (- k) g) as (g' & Hrun & Hrows & _).
    exists g'. split; [exact Hrun |]. rewrite Hrows.
    apply rectangular_rowsAfterChangeCols, Hrect.
Qed.

(** X20. On a body without element children [growRows(k)] returns, for every
    [k], with a body that still has none, and [refreshCapabilities] takes the
    column count to be [0]. *)
Theorem zero_rows_noop (g : GrowthTable) (k : Z) :
  body (_field g) = [] ->
  (exists g', growRows k g = Normal g' /\ body (_field g') = [])
  /\ colCount g = 0
  /\ canAddX (refreshCapabilities g) = (0 <? _maxDimCount g)
  /\ canRemX (refreshCapabilities g) = (0 >? _minDimCount g).
Proof.
  intros Hempty. split; [| split].
  - unfold growRows. rewrite changeRows_closed, Hempty.
    unfold bodyAfterChangeRows. cbn [lastElementChild rowsOf length].
    destruct (k >? 0).
    + cbn [lift]. eexists. split; [reflexivity |].
      cbn [setField _field]. apply body_fieldWith.
    + rewrite iter_dropLastRow_no_rows by reflexivity.
      cbn [lift]. eexists. split; [reflexivity |].
      cbn [setField _field]. apply body_fieldWith.
  - unfold colCount, rows. rewrite Hempty. reflexivity.
  - unfold refreshCapabilities. rewrite syncCurrentState_flags.
    unfold rows. rewrite Hempty. split; reflexivity.
Qed.

(** X21. The row [#changeRows] copies is [tbody.lastElementChild], a row or
    not, while rows are counted by [tbody.rows]: on a body whose last element
    child is not a row, with fewer than [maxDim] rows, [#changeRows(delta)],
    [delta > 0], inserts one row without cells behind that child and throws
    [TypeError]; the function returned by [clickHandler(dx, delta)] throws
    with it, before any column change and before the synchronisation: flags
    and buttons stay as they were. *)
Theorem changeRows_throws_after_non_row (dx delta : Z) (g : GrowthTable) :
  0 < delta ->
  lastElementChild (body (_field g)) = Some NonRow ->
  rowCount g < _maxDimCount g ->
  exists g', changeRows delta g = Throw TypeError g'
    /\ clickHandler dx delta g = Throw TypeError g'
    /\ body (_field g') = body (_field g) ++ [Tr []]
    /\ rows (_field g') = rows (_field g) ++ [[]]
    /\ _currentState g' = _currentState g
    /\ disabled g' = disabled g.
Proof.
  intros Hd El Hlt. unfold rowCount, rows in *.
  rewrite changeRows_closed, clickHandler_closed. unfold bodyAfterClick.
  replace (delta =? 0) with false by (symmetry; apply Z.eqb_neq; lia).
  rewrite (bodyAfterChangeRows_throws _ _ delta _ Hd El Hlt).
  cbn [lift bind]. eexists. split; [reflexivity |]. split; [reflexivity |].
  cbn [setField _field _currentState disabled].
  rewrite body_fieldWith, rowsOf_app. auto.
Qed.

(** ** Two handlers in a row, fixed points and round trips *)

Lemma clickHandler_then (dx1 dy1 dx2 dy2 : Z) (g : GrowthTable)
    (tb1 tb2 : TBody) :
  bodyAfterClick (_minDimCount g) (_maxDimCount g) dx1 dy1 (body (_field g))
  = Normal tb1 ->
  bodyAfterClick (_minDimCount g) (_maxDimCount g) dx2 dy2 tb1 = Normal tb2 ->
  (g1 <- clickHandler dx1 dy1 g ;; clickHandler dx2 dy2 g1)
  = Normal (syncedOf g (fieldWith (_field g) tb2)).
Proof.
  intros H1 H2. rewrite (clickHandler_closed dx1 dy1 g), H1. cbn [bind].
  rewrite clickHandler_closed.
  cbn [syncedOf _field _minDimCount _maxDimCount].
  rewrite body_fieldWith, H2, fieldWith_fieldWith.
  f_equal. apply (syncedOf_syncedOf g).
Qed.

Lemma clickHandler_fixed (dx dy : Z) (g : GrowthTable) :
  consistent g ->
  bodyAfterClick (_minDimCount g) (_maxDimCount g) dx dy (body (_field g))
  = Normal (body (_field g)) ->
  clickHandler dx dy g = Normal g.
Proof.
  intros Hc H. rewrite clickHandler_closed, H.
  destruct (consistent_syncedOf g Hc) as [Hg Hf].
  rewrite Hf. f_equal. symmetry. exact Hg.
Qed.

Lemma clickHandler_restores (dx1 dy1 dx2 dy2 : Z) (g : GrowthTable)
    (tb1 : TBody) :
  consistent g ->
  bodyAfterClick (_minDimCount g) (_maxDimCount g) dx1 dy1 (body (_field g))
  = Normal tb1 ->
  bodyAfterClick (_minDimCount g) (_maxDimCount g) dx2 dy2 tb1
  = Normal (body (_field g)) ->
  (g1 <- clickHandler dx1 dy1 g ;; clickHandler dx2 dy2 g1) = Normal g.
Proof.
  intros Hc H1 H2. rewrite (clickHandler_then _ _ _ _ g tb1 _ H1 H2).
  destruct (consistent_syncedOf g Hc) as [Hg Hf].
  rewrite Hf. f_equal. symmetry. exact Hg.
Qed.

Lemma iter_dropLastRow_cap (k : nat) (tb : TBody) :
  Nat.iter k dropLastRow tb
  = Nat.iter (Nat.min k (length (rowsOf tb))) dropLastRow tb.
Proof.
  destruct (Nat.le_gt_cases k (length (rowsOf tb))) as [H | H].
  - rewrite Nat.min_l by exact H. reflexivity.
  - assert (Hk : exists j, k = (length (rowsOf tb) + j)%nat)
      by (exists (k - length (rowsOf tb))%nat; lia).
    destruct Hk as [j ->]. rewrite Nat.min_r by lia.
    rewrite <- iter_add. apply iter_dropLastRow_no_rows.
    rewrite rowsOf_iter_dropLastRow, Nat.sub_diag. reflexivity.
Qed.

Lemma lastElementChild_app_repeat (tb : TBody) (c : Child) (n : nat) :
  lastElementChild tb = Some c ->
  lastElementChild (tb ++ repeat c n) = Some c.
Proof.
  intros El. destruct (lastElementChild_Some _ _ El) as [tb0 ->].
  rewrite <- app_assoc.
  change ([c] ++ repeat c n) with (repeat c (S n)).
  rewrite repeat_snoc, app_assoc. apply lastElementChild_snoc.
Qed.

Lemma removed_compose (minDim : Z) (na nb len : nat) :
  Nat.min (removed minDim na len
           + removed minDim nb
               (Nat.min (len - removed minDim na len) len)) len
  = Nat.min (removed minDim (na + nb) len) len.
Proof.
  unfold removed.
  set (A := Z.of_nat na). set (B := Z.of_nat nb). set (L := Z.of_nat len).
  assert (HA : 0 <= A) by (subst A; lia).
  assert (HB : 0 <= B) by (subst B; lia).
  assert (HL : 0 <= L) by (subst L; lia).
  replace (Z.of_nat (na + nb)) with (A + B) by (subst A B; lia).
  set (k1 := Z.to_nat (Z.min A (L - minDim))).
  assert (Hk1 : Z.of_nat k1 = Z.max 0 (Z.min A (L - minDim)))
    by (subst k1; lia).
  set (l1 := Nat.min (len - k1) len).
  assert (Hl1 : Z.of_nat l1 = Z.max 0 (L - Z.of_nat k1))
    by (subst l1 L; lia).
  set (k2 := Z.to_nat (Z.min B (Z.of_nat l1 - minDim))).
  assert (Hk2 : Z.of_nat k2 = Z.max 0 (Z.min B (Z.of_nat l1 - minDim)))
    by (subst k2; lia).
  set (k3 := Z.to_nat (Z.min (A + B) (L - minDim))).
  assert (Hk3 : Z.of_nat k3 = Z.max 0 (Z.min (A + B) (L - minDim)))
    by (subst k3; lia).
  clearbody k1 l1 k2 k3.
  apply Nat2Z.inj. rewrite !Nat2Z.inj_min, Nat2Z.inj_add.
  fold L. lia.
Qed.

Lemma added_compose (maxDim : Z) (na nb len : nat) :
  (added maxDim na len + added maxDim nb (len + added maxDim na len))%nat
  = added maxDim (na + nb) len.
Proof.
  unfold added.
  set (A := Z.of_nat na). set (B := Z.of_nat nb). set (L := Z.of_nat len).
  assert (HA : 0 <= A) by (subst A; lia).
  assert (HB : 0 <= B) by (subst B; lia).
  replace (Z.of_nat (na + nb)) with (A + B) by (subst A B; lia).
  set (k1 := Z.to_nat (Z.min A (maxDim - L))).
  assert (Hk1 : Z.of_nat k1 = Z.max 0 (Z.min A (maxDim - L)))
    by (subst k1; lia).
  replace (Z.of_nat (len + k1)) with (L + Z.of_nat k1) by (subst L; lia).
  set (k2 := Z.to_nat (Z.min B (maxDim - (L + Z.of_nat k1)))).
  assert (Hk2 : Z.of_nat k2
                = Z.max 0 (Z.min B (maxDim - (L + Z.of_nat k1))))
    by (subst k2; lia).
  set (k3 := Z.to_nat (Z.min (A + B) (maxDim - L))).
  assert (Hk3 : Z.of_nat k3 = Z.max 0 (Z.min (A + B) (maxDim - L)))
    by (subst k3; lia).
  clearbody k1 k2 k3. lia.
Qed.

(** Two row changes in the same direction add up, when the row that is
    copied re-parses to itself. *)
Lemma bodyAfterChangeRows_compose (minDim maxDim a b : Z) (tb : TBody) :
  (0 < a /\ 0 < b
   /\ forall ref, lastElementChild tb = Some (Tr ref) -> map reparse ref = ref)
  \/ (a <= 0 /\ b <= 0) ->
  (tb1 <- bodyAfterChangeRows minDim maxDim a tb ;;
   bodyAfterChangeRows minDim maxDim b tb1)
  = bodyAfterChangeRows minDim maxDim (a + b) tb.
Proof.
  intros [(Ha & Hb & Hst) | [Ha Hb]]; unfold bodyAfterChangeRows.
  - rewrite !gtb_true by lia.
    destruct (lastElementChild tb) as [[ref |] |] eqn:El.
    + cbn [bind]. rewrite (Hst ref eq_refl).
      rewrite (lastElementChild_app_repeat _ _ _ El).
      rewrite (Hst ref eq_refl).
      rewrite <- app_assoc, <- repeat_app. do 3 f_equal.
      rewrite rowsOf_app, length_app, rowsOf_repeat_Tr, repeat_length.
      rewrite added_compose. f_equal. lia.
    + destruct (Z.of_nat (length (rowsOf tb)) >=? maxDim) eqn:E; cbn [bind].
      * rewrite El, E. reflexivity.
      * reflexivity.
    + cbn [bind]. rewrite El. reflexivity.
  - rewrite !gtb_false by lia. cbn [bind]. f_equal.
    rewrite iter_add, rowsOf_iter_dropLastRow, length_firstn.
    rewrite iter_dropLastRow_cap, removed_compose, <- iter_dropLastRow_cap.
    do 2 f_equal. lia.
Qed.

Lemma bodyAfterChangeRows_undo (minDim maxDim k : Z) (tb : TBody) :
  1 <= k ->
  lastElementChild tb <> Some NonRow ->
  minDim <= Z.of_nat (length (rowsOf tb)) ->
  Z.of_nat (length (rowsOf tb)) + k <= maxDim ->
  exists tb1, bodyAfterChangeRows minDim maxDim k tb = Normal tb1
    /\ bodyAfterChangeRows minDim maxDim (- k) tb1 = Normal tb.
Proof.
  intros Hk Htpl Hmin Hmax. unfold bodyAfterChangeRows.
  rewrite gtb_true, gtb_false by lia.
  destruct (lastElementChild tb) as [[ref |] |] eqn:El.
  - eexists. split; [reflexivity |]. f_equal.
    rewrite rowsOf_app, length_app, rowsOf_repeat_Tr, repeat_length.
    assert (Ea : added maxDim (Z.to_nat k) (length (rowsOf tb)) = Z.to_nat k)
      by (unfold added; lia).
    rewrite Ea.
    assert (Er : removed minDim (Z.to_nat (Z.abs (- k)))
                   (length (rowsOf tb) + Z.to_nat k) = Z.to_nat k)
      by (unfold removed; lia).
    rewrite Er. apply iter_dropLastRow_repeat.
  - congruence.
  - apply lastElementChild_None in El. subst tb.
    eexists. split; [reflexivity |]. f_equal.
    apply iter_dropLastRow_no_rows. reflexivity.
Qed.

Lemma remCol_addCol_pure (minDim maxDim : Z) (r : Row) :
  minDim <= Z.of_nat (length r) < maxDim ->
  remCol_pure minDim (addCol_pure maxDim r) = r.
Proof.
  intros H. unfold addCol_pure. rewrite geb_false by lia.
  unfold remCol_pure. rewrite length_app. cbn [length].
  rewrite leb_false by lia. apply removelast_last.
Qed.

Lemma bodyAfterChangeCols_undo (minDim maxDim : Z) (tb : TBody) :
  Forall (fun r : Row => minDim <= Z.of_nat (length r) < maxDim) (rowsOf tb) ->
  bodyAfterChangeCols minDim maxDim (-1)
    (bodyAfterChangeCols minDim maxDim 1 tb) = tb.
Proof.
  intros H. unfold bodyAfterChangeCols. cbn [Z.gtb Z.compare].
  rewrite mapRows_mapRows. apply mapRows_fixed.
  intros r Hin. rewrite Forall_forall in H.
  apply remCol_addCol_pure, H, Hin.
Qed.

Lemma bodyAfterChangeCols_full (minDim maxDim delta : Z) (tb : TBody) :
  0 < delta -> rectangular (rowsOf tb) ->
  maxDim <= colCountOf (rowsOf tb) ->
  bodyAfterChangeCols minDim maxDim delta tb = tb.
Proof.
  intros Hd Hrect Hfull. unfold bodyAfterChangeCols.
  rewrite gtb_true by lia. apply mapRows_fixed. intros r Hin.
  unfold addCol_pure.
  rewrite geb_true; [reflexivity |].
  rewrite (rectangular_colCountOf _ r Hrect Hin). exact Hfull.
Qed.

Lemma bodyAfterChangeCols_low (minDim maxDim delta : Z) (tb : TBody) :
  delta <= 0 -> rectangular (rowsOf tb) ->
  colCountOf (rowsOf tb) <= minDim ->
  bodyAfterChangeCols minDim maxDim delta tb = tb.
Proof.
  intros Hd Hrect Hlow. unfold bodyAfterChangeCols.
  rewrite gtb_false by lia. apply mapRows_fixed. intros r Hin.
  unfold remCol_pure.
  rewrite leb_true; [reflexivity |].
  rewrite (rectangular_colCountOf _ r Hrect Hin). exact Hlow.
Qed.

(** *** A handler whose flag is off changes nothing *)

Lemma addRow_handler_noop (g : GrowthTable) :
  consistent g -> canAddY (_currentState g) = false ->
  clickHandler 0 1 g = Normal g.
Proof.
  intros Hc Hflag. apply clickHandler_fixed; [exact Hc |].
  rewrite bodyAfterClick_rows_only by lia.
  apply bodyAfterChangeRows_full; [lia |].
  rewrite (consistent_flags g Hc) in Hflag. cbn [canAddY] in Hflag.
  apply Z.ltb_ge in Hflag. exact Hflag.
Qed.

Lemma remRow_handler_noop (g : GrowthTable) :
  consistent g -> canRemY (_currentState g) = false ->
  clickHandler 0 (-1) g = Normal g.
Proof.
  intros Hc Hflag. apply clickHandler_fixed; [exact Hc |].
  rewrite bodyAfterClick_rows_only by lia.
  apply bodyAfterChangeRows_low; [lia |].
  rewrite (consistent_flags g Hc) in Hflag. cbn [canRemY] in Hflag.
  rewrite Z.gtb_ltb in Hflag. apply Z.ltb_ge in Hflag. exact Hflag.
Qed.

Lemma addCol_handler_noop (g : GrowthTable) :
  consistent g -> rectangular (rows (_field g)) ->
  canAddX (_currentState g) = false ->
  clickHandler 1 0 g = Normal g.
Proof.
  intros Hc Hrect Hflag. apply clickHandler_fixed; [exact Hc |].
  rewrite bodyAfterClick_cols_only by lia. f_equal.
  apply bodyAfterChangeCols_full; [lia | exact Hrect |].
  rewrite (consistent_flags g Hc) in Hflag. cbn [canAddX] in Hflag.
  apply Z.ltb_ge in Hflag. exact Hflag.
Qed.

Lemma remCol_handler_noop (g : GrowthTable) :
  consistent g -> rectangular (rows (_field g)) ->
  canRemX (_currentState g) = false ->
  clickHandler (-1) 0 g = Normal g.
Proof.
  intros Hc Hrect Hflag. apply clickHandler_fixed; [exact Hc |].
  rewrite bodyAfterClick_cols_only by lia. f_equal.
  apply bodyAfterChangeCols_low; [lia | exact Hrect |].
  rewrite (consistent_flags g Hc) in Hflag. cbn [canRemX] in Hflag.
  rewrite Z.gtb_ltb in Hflag. apply Z.ltb_ge in Hflag. exact Hflag.
Qed.

Lemma negb_flag_off (b d : bool) : d = negb b -> d = true -> b = false.
Proof. intros -> H. destruct b; [discriminate | reflexivity]. Qed.


(** X5. Two [#changeRows] calls in the same direction add up:
    [#changeRows(a)] followed by [#changeRows(b)] ends as [#changeRows(a + b)]
    does, with the same instance, whether it returns or throws, for
    [a, b <= 0], and for [a, b > 0] when the cells of the row that is copied
    re-parse to themselves. *)
Theorem changeRows_same_direction_adds_up (a b : Z) (g : GrowthTable) :
  (0 < a /\ 0 < b /\ templateIsStable g) \/ (a <= 0 /\ b <= 0) ->
  (g1 <- changeRows a g ;; changeRows b g1) = changeRows (a + b) g.
Proof.
  intros Hsign.
  rewrite (changeRows_closed (a + b) g).
  rewrite <- (bodyAfterChangeRows_compose _ _ a b _ Hsign).
  rewrite (changeRows_closed a g).
  destruct (bodyAfterChangeRows (_minDimCount g) (_maxDimCount g) a
              (body (_field g))) as [tb1 | e tb1]; cbn [lift bind].
  - rewrite changeRows_closed.
    cbn [setField _field _minDimCount _maxDimCount].
    rewrite body_fieldWith.
    destruct (bodyAfterChangeRows (_minDimCount g) (_maxDimCount g) b tb1);
      cbn [lift]; rewrite fieldWith_fieldWith; reflexivity.
  - reflexivity.
Qed.

(** X9. Adding rows is undone by removing as many: on a synchronised
    instance whose body does not end in a non-row element, with
    [minDim <= R] and [R + k <= maxDim], [k >= 1], the function
    [clickHandler(0, k)] followed by [clickHandler(0, -k)] returns the
    instance it started from: children of the body, flags and buttons. *)
Theorem add_rows_then_remove_restores (g : GrowthTable) (k : Z) :
  consistent g ->
  templateIsRow g ->
  1 <= k ->
  _minDimCount g <= rowCount g ->
  rowCount g + k <= _maxDimCount g ->
  (g1 <- clickHandler 0 k g ;; clickHandler 0 (- k) g1) = Normal g.
Proof.
  intros Hc Htpl Hk Hmin Hmax.
  destruct (bodyAfterChangeRows_undo (_minDimCount g) (_maxDimCount g) k
              (body (_field g)) Hk Htpl Hmin Hmax) as (tb1 & H1 & H2).
  apply (clickHandler_restores _ _ _ _ g tb1 Hc).
  - rewrite bodyAfterClick_rows_only by lia. exact H1.
  - rewrite bodyAfterClick_rows_only by lia. exact H2.
Qed.

(** X10. Adding a column is undone by removing one: on a synchronised
    instance whose rows all have at least [minDim] and fewer than [maxDim]
    cells, the add-column handler followed by the remove-column handler
    returns the instance it started from. *)
Theorem add_column_then_remove_restores (g : GrowthTable) :
  consistent g ->
  Forall (fun r : Row =>
            _minDimCount g <= Z.of_nat (length r) < _maxDimCount g)
    (rows (_field g)) ->
  (g1 <- clickHandler 1 0 g ;; clickHandler (-1) 0 g1) = Normal g.
Proof.
  intros Hc Hrows.
  apply (clickHandler_restores _ _ _ _ g
           (bodyAfterChangeCols (_minDimCount g) (_maxDimCount g) 1
              (body (_field g))) Hc).
  - apply bodyAfterClick_cols_only. lia.
  - rewrite bodyAfterClick_cols_only by lia. f_equal.
    apply bodyAfterChangeCols_undo, Hrows.
Qed.

(** X11. On a synchronised instance on which the [disabled] state of each
    button is the negation of its flag, as it is when the four buttons are
    four elements, the handler of a disabled button changes nothing: with the
    add-row or the remove-row button disabled its handler returns the
    instance as it was, and on a rectangular grid the same holds for the
    add-column and the remove-column button. *)
Theorem disabled_button_handler_is_noop (g : GrowthTable) :
  consistent g ->
  buttonsMatchFlags g ->
  (disabled g (_addRowBtn g) = true -> clickHandler 0 1 g = Normal g)
  /\ (disabled g (_remRowBtn g) = true -> clickHandler 0 (-1) g = Normal g)
  /\ (rectangular (rows (_field g)) ->
      (disabled g (_addColBtn g) = true -> clickHandler 1 0 g = Normal g)
      /\ (disabled g (_remColBtn g) = true ->
          clickHandler (-1) 0 g = Normal g)).
Proof.
  intros Hc (Har & Hrr & Hac & Hrc).
  split; [| split; [| intros Hrect; split]]; intros Hbtn.
  - apply addRow_handler_noop; [exact Hc |].
    exact (negb_flag_off _ _ Har Hbtn).
  - apply remRow_handler_noop; [exact Hc |].
    exact (negb_flag_off _ _ Hrr Hbtn).
  - apply addCol_handler_noop; [exact Hc | exact Hrect |].
    exact (negb_flag_off _ _ Hac Hbtn).
  - apply remCol_handler_noop; [exact Hc | exact Hrect |].
    exact (negb_flag_off _ _ Hrc Hbtn).
Qed.

(** X15. With [minDim < maxDim] the two flags of an axis are never both
    off: [#syncCurrentState] leaves at least one of [canAddY], [canRemY] and
    at least one of [canAddX], [canRemX] true. *)
Theorem some_direction_always_enabled (g : GrowthTable) :
  _minDimCount g < _maxDimCount g ->
  (canAddY (refreshCapabilities g) || canRemY (refreshCapabilities g) = true)
  /\ (canAddX (refreshCapabilities g) || canRemX (refreshCapabilities g) = true).
Proof.
  intros Hlt. unfold refreshCapabilities.
  rewrite syncCurrentState_flags. unfold flagsOf.
  cbn [canAddX canRemX canAddY canRemY].
  rewrite !Z.gtb_ltb. split; apply orb_true_iff.
  - destruct (Z.ltb_spec (Z.of_nat (length (rows (_field g)))) (_maxDimCount g));
      [left; reflexivity | right; apply Z.ltb_lt; lia].
  - match goal with
    | |- ((?c <? _) = true) \/ _ =>
        destruct (Z.ltb_spec c (_maxDimCount g));
          [left; reflexivity | right; apply Z.ltb_lt; lia]
    end.
Qed.

(** ** The constructor and the effect of the four handlers *)

(** X2. Whenever the constructor returns an instance, the instance holds the
    limits as given and is synchronised: the flags are those of the grid
    found in the document, and when the four selectors resolved to four
    elements the [disabled] state of each is the negation of its flag. *)
Theorem constructor_leaves_instance_synchronised
    (doc : Document) (tableFieldSel appendRowButtonSel removeRowButtonSel
                        appendColButtonSel removeColButtonSel : string)
    (minDimCount maxDimCount : Z) (g : GrowthTable) :
  constructor doc tableFieldSel appendRowButtonSel removeRowButtonSel
    appendColButtonSel removeColButtonSel minDimCount maxDimCount = inr g ->
  consistent g
  /\ flagsMatchGrid g
  /\ (distinctButtons g -> buttonsMatchFlags g)
  /\ _minDimCount g = minDimCount
  /\ _maxDimCount g = maxDimCount.
Proof.
  unfold constructor. intros H.
  destruct (querySelector doc tableFieldSel) as [| | fieldRef];
    try discriminate.
  destruct (elementAt doc fieldRef) as [t |]; try discriminate.
  destruct (querySelector doc appendRowButtonSel) as [| | b1];
    destruct (querySelector doc removeRowButtonSel) as [| | b2];
    destruct (querySelector doc appendColButtonSel) as [| | b3];
    destruct (querySelector doc removeColButtonSel) as [| | b4];
    try discriminate.
  injection H as <-.
  match goal with
  | |- consistent (syncCurrentState ?g0) /\ _ =>
      pose proof (syncCurrentState_consistent g0) as Hc;
      destruct (syncCurrentState_rows g0) as (_ & Hmin & Hmax)
  end.
  split; [exact Hc |]. split; [apply consistent_flags, Hc |].
  split; [apply consistent_buttons, Hc |].
  rewrite Hmin, Hmax. auto.
Qed.




(** X13. With [maxDim > 0], on a body without element children the add-row
    handler returns with a body that still has none, and on a grid without
    rows the add-column handler returns with a grid that still has none;
    each leaves its flag on, and its button enabled when the four buttons are
    four elements: the buttons stay enabled although a click adds nothing. *)
Theorem empty_grid_add_buttons_enabled_without_effect (g : GrowthTable) :
  0 < _maxDimCount g ->
  (body (_field g) = [] ->
   exists g', clickHandler 0 1 g = Normal g'
     /\ body (_field g') = []
     /\ canAddY (_currentState g') = true
     /\ (distinctButtons g -> disabled g' (_addRowBtn g') = false))
  /\ (rows (_field g) = [] ->
      exists g', clickHandler 1 0 g = Normal g'
        /\ rows (_field g') = []
        /\ canAddX (_currentState g') = true
        /\ (distinctButtons g -> disabled g' (_addColBtn g') = false)).
Proof.
  intros Hmax. split.
  - intros Hempty.
    assert (Hrun : clickHandler 0 1 g
                   = Normal (syncedOf g (fieldWith (_field g) [])))
      by (rewrite clickHandler_closed, Hempty; reflexivity).
    rewrite Hrun. eexists. split; [reflexivity |].
    assert (Hflag : canAddY (_currentState
                      (syncedOf g (fieldWith (_field g) []))) = true).
    { cbn [syncedOf _currentState]. rewrite rows_fieldWith.
      cbn [rowsOf flagsOf length canAddY]. apply Z.ltb_lt. exact Hmax. }
    split; [apply body_fieldWith |]. split; [exact Hflag |].
    intros Hd.
    destruct (syncedOf_buttons g (fieldWith (_field g) []) Hd) as (Har & _).
    rewrite Har, Hflag. reflexivity.
  - intros Hempty.
    destruct (clickHandler_returns 1 0 g) as (tb' & Hrun & _ & Hrows);
      [right; lia |].
    rewrite Hrun. eexists. split; [reflexivity |].
    assert (Hr : rows (_field (syncedOf g (fieldWith (_field g) tb'))) = []).
    { cbn [syncedOf _field]. rewrite rows_fieldWith, Hrows, Hempty.
      reflexivity. }
    assert (Hflag : canAddX (_currentState
                      (syncedOf g (fieldWith (_field g) tb'))) = true).
    { cbn [syncedOf _currentState _field] in *. rewrite Hr.
      cbn [flagsOf length canAddX]. apply Z.ltb_lt. exact Hmax. }
    split; [exact Hr |]. split; [exact Hflag |].
    intros Hd.
    destruct (syncedOf_buttons g (fieldWith (_field g) tb') Hd)
      as (_ & _ & Hac & _).
    rewrite Hac, Hflag. reflexivity.
Qed.

(** X23. What [#changeCols] writes: for every [delta > 0] the call returns,
    and a row with fewer than [maxDim] cells gains one cell, which holds the
    [innerHTML] of the cell that was last as the parser re-serialises it; a
    row without cells gains a cell that was assigned the empty string.  The
    children of the body that are not rows stay where they are. *)
Theorem changeCols_copies_last_cell (g : GrowthTable) (delta : Z) :
  0 < delta ->
  exists g', changeCols delta g = Normal g'
    /\ body (_field g')
       = mapRows (addCol_pure (_maxDimCount g)) (body (_field g))
    /\ forall i r, nth_error (rows (_field g)) i = Some r ->
         Z.of_nat (length r) < _maxDimCount g ->
         nth_error (rows (_field g')) i
         = Some (r ++ [reparse (last r EmptyString)])
         /\ (r = [] ->
             nth_error (rows (_field g')) i = Some [reparse EmptyString]).
Proof.
  intros Hd. rewrite changeCols_closed. eexists. split; [reflexivity |].
  cbn [setField _field]. unfold rows. rewrite body_fieldWith.
  unfold bodyAfterChangeCols. rewrite gtb_true by lia.
  split; [reflexivity |]. intros i r Hr Hlt.
  rewrite rowsOf_mapRows, nth_error_map, Hr. cbn [option_map].
  unfold addCol_pure. rewrite geb_false by lia.
  split; [reflexivity |]. intros ->. reflexivity.
Qed.

(** ** Clicks *)












Lemma settle_clickHandler (dx dy : Z) (g : GrowthTable) :
  templateIsRow g \/ dy <= 0 ->
  exists tb',
    settle (clickHandler dx dy g) = syncedOf g (fieldWith (_field g) tb')
    /\ bodyAfterClick (_minDimCount g) (_maxDimCount g) dx dy (body (_field g))
       = Normal tb'
    /\ rowsOf tb'
       = rowsAfterClick (_minDimCount g) (_maxDimCount g) dx dy
           (rows (_field g)).
Proof.
  intros H. destruct (clickHandler_returns dx dy g H) as (tb' & Hrun & Hb & Hr).
  exists tb'. rewrite Hrun. auto.
Qed.


(** *** Clicks on the row buttons *)







(** *** Clicks on the column buttons *)






(** *** Any sequence of clicks on a body of rows *)

Lemma Forall_mapRows (f : Row -> Row) (tb : TBody) :
  Forall (fun c => c <> NonRow) tb ->
  Forall (fun c => c <> NonRow) (mapRows f tb).
Proof.
  induction 1 as [| c tb Hc _ IH]; [constructor |].
  destruct c as [r |]; cbn [mapRows]; constructor; try exact IH.
  - discriminate.
  - exact Hc.
Qed.

Lemma Forall_deleteRowAt (P : Child -> Prop) (i : nat) (tb : TBody) :
  Forall P tb -> Forall P (deleteRowAt i tb).
Proof.
  intros H. revert i. induction H as [| c tb Hc Htb IH]; intros i.
  - constructor.
  - cbn [deleteRowAt]. destruct c as [r |].
    + destruct i; [exact Htb | constructor; [exact Hc | apply IH]].
    + constructor; [exact Hc | apply IH].
Qed.

Lemma Forall_dropLastRow (P : Child -> Prop) (tb : TBody) :
  Forall P tb -> Forall P (dropLastRow tb).
Proof.
  intros H. unfold dropLastRow.
  destruct (length (rowsOf tb)); [exact H | apply Forall_deleteRowAt, H].
Qed.

Lemma Forall_iter_dropLastRow (P : Child -> Prop) (k : nat) (tb : TBody) :
  Forall P tb -> Forall P (Nat.iter k dropLastRow tb).
Proof.
  intros H. induction k as [| k IH]; [exact H |].
  rewrite Nat.iter_succ. apply Forall_dropLastRow, IH.
Qed.

Lemma rowsOnly_bodyAfterChangeRows (minDim maxDim delta : Z)
    (tb tb' : TBody) :
  Forall (fun c => c <> NonRow) tb ->
  bodyAfterChangeRows minDim maxDim delta tb = Normal tb' ->
  Forall (fun c => c <> NonRow) tb'.
Proof.
  intros H. unfold bodyAfterChangeRows. destruct (delta >? 0).
  - destruct (lastElementChild tb) as [[ref |] |].
    + intros E. injection E as <-. apply Forall_app. split; [exact H |].
      apply Forall_forall. intros c Hin. apply repeat_spec in Hin.
      subst c. discriminate.
    + destruct (Z.of_nat (length (rowsOf tb)) >=? maxDim);
        [| discriminate].
      intros E. injection E as <-. exact H.
    + intros E. injection E as <-. exact H.
  - intros E. injection E as <-. apply Forall_iter_dropLastRow, H.
Qed.

Lemma rowsOnly_bodyAfterClick (minDim maxDim dx dy : Z) (tb tb' : TBody) :
  Forall (fun c => c <> NonRow) tb ->
  bodyAfterClick minDim maxDim dx dy tb = Normal tb' ->
  Forall (fun c => c <> NonRow) tb'.
Proof.
  intros H. unfold bodyAfterClick.
  assert (Hcols : forall tb1, Forall (fun c => c <> NonRow) tb1 ->
            Forall (fun c => c <> NonRow)
              (if dx =? 0 then tb1
               else bodyAfterChangeCols minDim maxDim dx tb1)).
  { intros tb1 H1. destruct (dx =? 0); [exact H1 |].
    unfold bodyAfterChangeCols. destruct (dx >? 0); apply Forall_mapRows, H1. }
  destruct (dy =? 0).
  - cbn [bind]. intros E. injection E as <-. apply Hcols, H.
  - destruct (bodyAfterChangeRows minDim maxDim dy tb) as [tb1 | e tb1] eqn:E1;
      cbn [bind]; [| discriminate].
    intros E. injection E as <-.
    apply Hcols, (rowsOnly_bodyAfterChangeRows _ _ _ _ _ H E1).
Qed.

Lemma keeps_refl (g : GrowthTable) : rowsOnly g -> keeps g g.
Proof. intros H. unfold keeps. auto 10. Qed.

Lemma keeps_trans (g g1 g2 : GrowthTable) :
  keeps g g1 -> keeps g1 g2 -> keeps g g2.
Proof.
  unfold keeps.
  intros (Hmin1 & Hmax1 & Hb1 & Hro1 & Hre1 & Hw1 & Hc1)
         (Hmin2 & Hmax2 & Hb2 & Hro2 & Hre2 & Hw2 & Hc2).
  split; [congruence |]. split; [congruence |]. split; [congruence |].
  split; [exact Hro2 |]. split; [auto |]. split; auto.
Qed.

Lemma handler_keeps (dx dy : Z) (g : GrowthTable) :
  rowsOnly g -> keeps g (settle (clickHandler dx dy g)).
Proof.
  intros Hro.
  destruct (settle_clickHandler dx dy g
              (or_introl (rowsOnly_templateIsRow g Hro)))
    as (tb' & -> & Hbody & Hrows).
  unfold keeps.
  split; [reflexivity |]. split; [reflexivity |]. split; [reflexivity |].
  split.
  { unfold rowsOnly. cbn [syncedOf _field]. rewrite body_fieldWith.
    exact (rowsOnly_bodyAfterClick _ _ _ _ _ _ Hro Hbody). }
  split.
  { intros Hrect. cbn [syncedOf _field]. rewrite rows_fieldWith, Hrows.
    apply rectangular_rowsAfterClick, Hrect. }
  split.
  { intros [HR HC]. unfold withinBounds, rowCount in *.
    cbn [syncedOf _field _minDimCount _maxDimCount].
    rewrite rows_fieldWith, Hrows.
    apply within_rowsAfterClick; assumption. }
  intros _. apply syncedOf_consistent.
Qed.

Lemma dispatch_keeps (ls : list (Ref * (Z * Z))) (target : Ref)
    (g : GrowthTable) :
  rowsOnly g -> keeps g (dispatch ls target g).
Proof.
  revert g. induction ls as [| [el [dx dy]] ls IH]; intros g Hro.
  - apply keeps_refl, Hro.
  - cbn [dispatch].
    assert (H1 : keeps g (if Nat.eqb el target
                          then settle (clickHandler dx dy g) else g)).
    { destruct (Nat.eqb el target);
        [apply handler_keeps, Hro | apply keeps_refl, Hro]. }
    apply (keeps_trans _ _ _ H1). apply IH.
    destruct H1 as (_ & _ & _ & H & _). exact H.
Qed.

Lemma click_keeps (control : bool) (target : Ref) (g : GrowthTable) :
  rowsOnly g -> keeps g (click control target g).
Proof.
  intros Hro. unfold click.
  destruct (control && disabled g target);
    [apply keeps_refl, Hro | apply dispatch_keeps, Hro].
Qed.

Lemma clickAll_keeps (cs : list (bool * Ref)) (g : GrowthTable) :
  rowsOnly g -> keeps g (clickAll cs g).
Proof.
  revert g. induction cs as [| [control target] cs IH]; intros g Hro.
  - apply keeps_refl, Hro.
  - cbn [clickAll].
    pose proof (click_keeps control target g Hro) as H1.
    apply (keeps_trans _ _ _ H1). apply IH.
    destruct H1 as (_ & _ & _ & H & _). exact H.
Qed.

(** X17. On a body that holds rows only, whatever sequence of clicks the
    user makes, on the buttons or elsewhere, on controls or not, and whether
    or not buttons coincide: the limits and the button references stay as
    they were, the body still holds rows only, a rectangular grid stays
    rectangular, a grid within the limits stays within them, a synchronised
    instance stays synchronised, and every handler called in the state
    reached returns normally. *)
Theorem every_click_sequence_keeps_invariants
    (cs : list (bool * Ref)) (g : GrowthTable) :
  rowsOnly g ->
  _minDimCount (clickAll cs g) = _minDimCount g
  /\ _maxDimCount (clickAll cs g) = _maxDimCount g
  /\ [_addRowBtn (clickAll cs g); _remRowBtn (clickAll cs g);
      _addColBtn (clickAll cs g); _remColBtn (clickAll cs g)]
     = [_addRowBtn g; _remRowBtn g; _addColBtn g; _remColBtn g]
  /\ rowsOnly (clickAll cs g)
  /\ (rectangular (rows (_field g)) ->
      rectangular (rows (_field (clickAll cs g))))
  /\ (withinBounds g -> withinBounds (clickAll cs g))
  /\ (consistent g -> consistent (clickAll cs g))
  /\ forall dx dy, returns (clickHandler dx dy (clickAll cs g)).
Proof.
  intros Hro.
  destruct (clickAll_keeps cs g Hro)
    as (Hmin & Hmax & Hb & Hro' & Hre & Hw & Hc).
  repeat (split; [assumption |]).
  intros dx dy.
  destruct (clickHandler_returns dx dy (clickAll cs g)
              (or_introl (rowsOnly_templateIsRow _ Hro')))
    as (tb' & Hrun & _).
  eexists. exact Hrun.
Qed.

End Parser.

(** * The theorems at sample inputs

    From here on the parser is a concrete function: [verbatim], which leaves
    markup as it is, and two that do not. *)

Lemma consistent_instanceOf (minDimCount maxDimCount : Z) (tb : TBody) :
  consistent (instanceOf minDimCount maxDimCount tb).
Proof. apply syncCurrentState_consistent. Qed.

Lemma distinctButtons_instanceOf (minDimCount maxDimCount : Z) (tb : TBody) :
  distinctButtons (instanceOf minDimCount maxDimCount tb).
Proof.
  unfold distinctButtons. cbn.
  repeat (constructor; [cbn; intuition discriminate |]). constructor.
Qed.

Lemma buttonsMatchFlags_instanceOf (minDimCount maxDimCount : Z) (tb : TBody) :
  buttonsMatchFlags (instanceOf minDimCount maxDimCount tb).
Proof.
  apply consistent_buttons;
    [apply consistent_instanceOf | apply distinctButtons_instanceOf].
Qed.

Lemma templateIsRow_map_Tr (minDimCount maxDimCount : Z) (rs : list Row) :
  templateIsRow (instanceOf minDimCount maxDimCount (map Tr rs)).
Proof.
  apply rowsOnly_templateIsRow. unfold rowsOnly.
  replace (body (_field (instanceOf minDimCount maxDimCount (map Tr rs))))
    with (map Tr rs) by reflexivity.
  apply Forall_forall. intros c Hin. apply in_map_iff in Hin as (r & <- & _).
  discriminate.
Qed.

Lemma rowsOnly_map_Tr (minDimCount maxDimCount : Z) (rs : list Row) :
  rowsOnly (instanceOf minDimCount maxDimCount (map Tr rs)).
Proof.
  unfold rowsOnly.
  replace (body (_field (instanceOf minDimCount maxDimCount (map Tr rs))))
    with (map Tr rs) by reflexivity.
  apply Forall_forall. intros c Hin. apply in_map_iff in Hin as (r & <- & _).
  discriminate.
Qed.

Lemma templateIsStable_verbatim (g : GrowthTable) :
  templateIsStable verbatim g.
Proof. intros ref _. apply map_id. Qed.

Lemma rectangular_grid3x2 : rectangular grid3x2.
Proof.
  intros r1 r2 H1 H2. simpl in H1, H2.
  destruct H1 as [<- | [<- | [<- | []]]];
    destruct H2 as [<- | [<- | [<- | []]]]; reflexivity.
Qed.

Lemma within_table3x2 : withinBounds table3x2.
Proof.
  split; [split; discriminate |].
  repeat constructor; discriminate.
Qed.


(** C6, at a sample input: three rows with both limits at three. *)
Lemma at_bound_silent_noop_witness :
  1 <= 2
  /\ (exists g', growRows verbatim 2 tightTable = Normal g'
        /\ rows (_field g') = rows (_field tightTable)
        /\ rowCount g' = rowCount tightTable)
  /\ (exists g', shrinkRows verbatim 2 tightTable = Normal g'
        /\ rows (_field g') = rows (_field tightTable)
        /\ rowCount g' = rowCount tightTable).
Proof.
  assert (Hk : 1 <= 2) by lia.
  assert (Hfull : _maxDimCount tightTable <= rowCount tightTable)
    by discriminate.
  assert (Hlow : rowCount tightTable <= _minDimCount tightTable)
    by discriminate.
  destruct (at_bound_silent_noop verbatim tightTable 2 Hk) as (Hg & Hs & _).
  exact (conj Hk (conj (Hg Hfull) (Hs Hlow))).
Defined.

(** C10, at a sample input: [delta = -3] removes one cell. *)
Lemma changeCols_one_cell_per_row_witness :
  changeCols verbatim (-3) looseTable = changeCols verbatim (-1) looseTable
  /\ exists g', changeCols verbatim (-3) looseTable = Normal g'
     /\ exists r', nth_error (rows (_field g')) 0 = Some r'
        /\ r' = ["a"%string] /\ Z.of_nat (length r') = 1.
Proof.
  assert (Hnz : -3 <> 0) by lia.
  destruct (changeCols_one_cell_per_row verbatim looseTable (-3) Hnz)
    as (Hsgn & g' & Hrun & _ & _ & Hrow).
  split; [exact Hsgn |]. exists g'. split; [exact Hrun |].
  destruct (Hrow O ["a"; "b"]%string eq_refl) as (r' & Hr' & _ & Hneg).
  exists r'. split; [exact Hr' |].
  assert (Hd : -3 < 0) by lia.
  assert (Hlen : _minDimCount looseTable < Z.of_nat (length ["a"; "b"]%string))
    by reflexivity.
  assert (Hmin : 0 <= _minDimCount looseTable) by discriminate.
  destruct (proj1 (Hneg Hd) Hlen) as [Hcut Hcount].
  exact (conj Hcut (Hcount Hmin)).
Defined.

Lemma clickHandler_leaves_instance_synchronised_witness :
  exists g', clickHandler verbatim 1 1 table3x2 = Normal g'
    /\ consistent g' /\ flagsMatchGrid g' /\ buttonsMatchFlags g'.
Proof.
  destruct (clickHandler_leaves_instance_synchronised verbatim 1 1 table3x2
              (or_introl (templateIsRow_map_Tr 2 10 grid3x2)))
    as (g' & Hrun & _ & _ & Hc & Hf & Hb).
  exists g'.
  exact (conj Hrun (conj Hc (conj Hf
           (Hb (distinctButtons_instanceOf 2 10 (map Tr grid3x2)))))).
Defined.

Lemma constructor_leaves_instance_synchronised_witness :
  construct (documentOf (map Tr grid3x2)) 2 10 = inr table3x2
  /\ consistent table3x2
  /\ flagsMatchGrid table3x2
  /\ buttonsMatchFlags table3x2.
Proof.
  assert (Hrun : construct (documentOf (map Tr grid3x2)) 2 10 = inr table3x2)
    by reflexivity.
  destruct (constructor_leaves_instance_synchronised
              (documentOf (map Tr grid3x2))
              ".field" ".append-row.button" ".remove-row.button"
              ".append-column.button" ".remove-column.button" 2 10
              table3x2 Hrun) as (Hc & Hf & Hb & _).
  exact (conj Hrun (conj Hc (conj Hf
           (Hb (distinctButtons_instanceOf 2 10 (map Tr grid3x2)))))).
Defined.

Lemma clickHandler_keeps_within_bounds_witness :
  withinBounds table3x2
  /\ exists g', clickHandler verbatim 1 1 table3x2 = Normal g'
       /\ withinBounds g'.
Proof.
  exact (conj within_table3x2
           (clickHandler_keeps_within_bounds verbatim 1 1 table3x2
              within_table3x2
              (or_introl (templateIsRow_map_Tr 2 10 grid3x2)))).
Defined.

Lemma clickHandler_keeps_rectangular_witness :
  rectangular (rows (_field table3x2))
  /\ exists g', clickHandler verbatim 1 1 table3x2 = Normal g'
       /\ rectangular (rows (_field g')).
Proof.
  exact (conj rectangular_grid3x2
           (clickHandler_keeps_rectangular verbatim 1 1 table3x2
              rectangular_grid3x2
              (or_introl (templateIsRow_map_Tr 2 10 grid3x2)))).
Defined.

Lemma changeRows_same_direction_adds_up_witness :
  (g1 <- changeRows verbatim 1 table3x2 ;; changeRows verbatim 2 g1)
  = changeRows verbatim 3 table3x2.
Proof.
  assert (H1 : 0 < 1) by lia. assert (H2 : 0 < 2) by lia.
  exact (changeRows_same_direction_adds_up verbatim 1 2 table3x2
           (or_introl (conj H1 (conj H2 (templateIsStable_verbatim table3x2))))).
Defined.




Lemma add_rows_then_remove_restores_witness :
  (g1 <- clickHandler verbatim 0 2 table3x2 ;; clickHandler verbatim 0 (-2) g1)
  = Normal table3x2.
Proof.
  assert (Hk : 1 <= 2) by lia.
  assert (Hmin : _minDimCount table3x2 <= rowCount table3x2) by discriminate.
  assert (Hmax : rowCount table3x2 + 2 <= _maxDimCount table3x2)
    by discriminate.
  exact (add_rows_then_remove_restores verbatim table3x2 2
           (consistent_instanceOf 2 10 (map Tr grid3x2))
           (templateIsRow_map_Tr 2 10 grid3x2) Hk Hmin Hmax).
Defined.

Lemma add_column_then_remove_restores_witness :
  (g1 <- clickHandler verbatim 1 0 table3x2 ;; clickHandler verbatim (-1) 0 g1)
  = Normal table3x2.
Proof.
  assert (Hrows : Forall (fun r : Row =>
                            _minDimCount table3x2 <= Z.of_nat (length r)
                                                  < _maxDimCount table3x2)
                    (rows (_field table3x2))).
  { repeat constructor; discriminate. }
  exact (add_column_then_remove_restores verbatim table3x2
           (consistent_instanceOf 2 10 (map Tr grid3x2)) Hrows).
Defined.

Lemma disabled_button_handler_is_noop_witness :
  disabled tightTable (_addRowBtn tightTable) = true
  /\ clickHandler verbatim 0 1 tightTable = Normal tightTable.
Proof.
  assert (Hbtn : disabled tightTable (_addRowBtn tightTable) = true)
    by reflexivity.
  destruct (disabled_button_handler_is_noop verbatim tightTable
              (consistent_instanceOf 3 3 (map Tr grid3x2))
              (buttonsMatchFlags_instanceOf 3 3 (map Tr grid3x2)))
    as [Hadd _].
  exact (conj Hbtn (Hadd Hbtn)).
Defined.


Lemma empty_grid_add_buttons_enabled_without_effect_witness :
  0 < _maxDimCount bodilessTable
  /\ exists g', clickHandler verbatim 0 1 bodilessTable = Normal g'
       /\ body (_field g') = []
       /\ canAddY (_currentState g') = true.
Proof.
  assert (Hmax : 0 < _maxDimCount bodilessTable) by reflexivity.
  destruct (empty_grid_add_buttons_enabled_without_effect verbatim
              bodilessTable Hmax) as [Hadd _].
  destruct (Hadd eq_refl) as (g' & Hrun & Hbody & Hflag & _).
  exact (conj Hmax (ex_intro _ g' (conj Hrun (conj Hbody Hflag)))).
Defined.


Lemma some_direction_always_enabled_witness :
  (canAddY (refreshCapabilities table3x2)
   || canRemY (refreshCapabilities table3x2) = true)
  /\ (canAddX (refreshCapabilities table3x2)
      || canRemX (refreshCapabilities table3x2) = true).
Proof.
  assert (Hlt : _minDimCount table3x2 < _maxDimCount table3x2)
    by reflexivity.
  exact (some_direction_always_enabled table3x2 Hlt).
Defined.

Lemma every_click_sequence_keeps_invariants_witness :
  rowsOnly (clickAll verbatim [(true, 1%nat); (true, 3%nat); (false, 2%nat)]
              table3x2)
  /\ rectangular
       (rows (_field (clickAll verbatim
                        [(true, 1%nat); (true, 3%nat); (false, 2%nat)]
                        table3x2)))
  /\ consistent (clickAll verbatim
                   [(true, 1%nat); (true, 3%nat); (false, 2%nat)] table3x2).
Proof.
  destruct (every_click_sequence_keeps_invariants verbatim
              [(true, 1%nat); (true, 3%nat); (false, 2%nat)] table3x2
              (rowsOnly_map_Tr 2 10 grid3x2))
    as (_ & _ & _ & Hro & Hre & _ & Hc & _).
  exact (conj Hro (conj (Hre rectangular_grid3x2)
           (Hc (consistent_instanceOf 2 10 (map Tr grid3x2))))).
Defined.

Lemma growRows_shrinkRows_rowCount_witness :
  (exists g', growRows verbatim 3 table3x2 = Normal g' /\ rowCount g' = 6)
  /\ (exists g', shrinkRows verbatim 3 table3x2 = Normal g'
        /\ rowCount g' = 2).
Proof.
  assert (Hmin : 1 <= _minDimCount table3x2) by discriminate.
  assert (HR : _minDimCount table3x2 <= rowCount table3x2
               <= _maxDimCount table3x2) by (split; discriminate).
  assert (Hk : 1 <= 3) by lia.
  destruct (growRows_shrinkRows_rowCount verbatim table3x2 3 Hmin HR Hk)
    as [Hadd Hrem].
  exact (conj (Hadd (templateIsRow_map_Tr 2 10 grid3x2)) Hrem).
Defined.

Lemma rectangular_preserved_witness :
  rectangular (rows (_field table3x2))
  /\ (exists g', growRows verbatim 1 table3x2 = Normal g'
        /\ rectangular (rows (_field g')))
  /\ (exists g', growCols verbatim 1 table3x2 = Normal g'
        /\ rectangular (rows (_field g'))).
Proof.
  destruct (rectangular_preserved verbatim table3x2 1 rectangular_grid3x2)
    as (Hgr & _ & Hgc & _).
  exact (conj rectangular_grid3x2
           (conj (Hgr (templateIsRow_map_Tr 2 10 grid3x2)) Hgc)).
Defined.

Lemma zero_rows_noop_witness :
  body (_field bodilessTable) = []
  /\ (exists g', growRows verbatim 3 bodilessTable = Normal g'
        /\ body (_field g') = [])
  /\ colCount bodilessTable = 0.
Proof.
  destruct (zero_rows_noop verbatim bodilessTable 3 eq_refl)
    as (Hrun & Hcol & _).
  exact (conj eq_refl (conj Hrun Hcol)).
Defined.

Lemma changeRows_throws_after_non_row_witness :
  exists g', changeRows verbatim 2 templateTable = Throw TypeError g'
    /\ clickHandler verbatim 0 2 templateTable = Throw TypeError g'
    /\ rows (_field g') = [["a"; "b"]; ["c"; "d"]; []]%string
    /\ _currentState g' = _currentState templateTable.
Proof.
  assert (Hd : 0 < 2) by lia.
  assert (Hlt : rowCount templateTable < _maxDimCount templateTable)
    by reflexivity.
  destruct (changeRows_throws_after_non_row verbatim 0 2 templateTable
              Hd eq_refl Hlt) as (g' & H1 & H2 & _ & Hrows & Hst & _).
  exact (ex_intro _ g' (conj H1 (conj H2 (conj Hrows Hst)))).
Defined.

Lemma changeCols_copies_last_cell_witness :
  exists g', changeCols verbatim 1 table3x2 = Normal g'
    /\ nth_error (rows (_field g')) 0 = Some ["a"; "b"; "b"]%string.
Proof.
  assert (Hd : 0 < 1) by lia.
  destruct (changeCols_copies_last_cell verbatim table3x2 1 Hd)
    as (g' & Hrun & _ & Hrow).
  assert (Hlt : Z.of_nat (length ["a"; "b"]%string) < _maxDimCount table3x2)
    by reflexivity.
  destruct (Hrow O ["a"; "b"]%string eq_refl Hlt) as [Hr _].
  exact (ex_intro _ g' (conj Hrun Hr)).
Defined.

Lemma growRows_copies_last_row_witness :
  exists g', growRows verbatim 2 abcTable = Normal g'
    /\ rows (_field g')
       = [["x"; "y"; "z"]; ["a"; "b"; "c"]; ["a"; "b"; "c"];
          ["a"; "b"; "c"]]%string.
Proof.
  assert (Hk : 1 <= 2) by lia.
  assert (Htpl : templateIsRow abcTable)
    by exact (templateIsRow_map_Tr 2 10
                [["x"; "y"; "z"]; ["a"; "b"; "c"]]%string).
  destruct (growRows_copies_last_row verbatim abcTable 2 Hk Htpl)
    as [_ Hex].
  exact (Hex ["x"; "y"; "z"]%string eq_refl eq_refl eq_refl).
Defined.

(** *** Where a hypothesis is needed *)

(** The copy goes through the parser: with a parser that drops a form nested
    in a form, the row [growRows(1)] appends differs from the last row. *)
Lemma growRows_copy_is_reparsed :
  exists g', growRows dropsNestedForm 1 nestedFormTable = Normal g'
    /\ rows (_field g')
       = [["<form><form></form></form>"]; ["<form></form>"]]%string
    /\ nth_error (rows (_field g')) 1
       <> Some (last (rows (_field nestedFormTable)) []).
Proof.
  eexists. split; [reflexivity |]. split; [reflexivity | discriminate].
Qed.

(** With markup that changes again when it is re-parsed, two calls do not
    add up: the second call copies the row the first one appended. *)
Lemma changeRows_unstable_markup_does_not_add_up :
  (exists g', (g1 <- changeRows unstableMarkup 1 unstableTable ;;
               changeRows unstableMarkup 1 g1) = Normal g'
     /\ rows (_field g') = [["m0"]; ["m1"]; ["m2"]]%string)
  /\ (exists g', changeRows unstableMarkup 2 unstableTable = Normal g'
        /\ rows (_field g') = [["m0"]; ["m1"]; ["m1"]]%string).
Proof. split; eexists; split; reflexivity. Qed.

(** When the add-row and the remove-row button are one element, the later
    assignment to [disabled] wins: on a grid of [minDim] rows the element is
    disabled although the add-row flag is on, and the add-row handler adds a
    row. *)
Lemma aliased_disabled_button_handler_adds_row :
  consistent aliasedTable
  /\ disabled aliasedTable (_addRowBtn aliasedTable) = true
  /\ canAddY (_currentState aliasedTable) = true
  /\ exists g', clickHandler verbatim 0 1 aliasedTable = Normal g'
       /\ rowCount aliasedTable = 3 /\ rowCount g' = 4.
Proof.
  split; [apply syncCurrentState_consistent |].
  split; [reflexivity |]. split; [reflexivity |].
  eexists. split; [reflexivity |]. split; reflexivity.
Qed.
